(** * NSFW detection service: a shallow embedding of
      [server/services/nsfw-detection.ts] and the properties of its
      fail-closed pipeline, decision thresholds, model initialisation and
      bounded audit log.

    The module is stateful and its functions throw, so they are embedded as
    functions from the process state to a completion (a value or a thrown
    error) and a new state.  [sharp] and [fs] are outside the module: the
    image library is a parameter whose operations resolve or reject as a
    function of the bytes they are given, the file system is part of the
    state.  Each call runs to completion before the next one starts, so
    [await] always meets a settled promise.  What is thrown is always an
    [Error] object.  Console output and the measurement of the elapsed time
    have no effect on the state or on a result and are left out. *)

From Stdlib Require Import String Ascii.
From Stdlib Require Import List ZArith Lia Bool.
From Stdlib Require Import Floats.
Import ListNotations.

Set Warnings "-inexact-float".

Local Open Scope string_scope.
Local Open Scope Z_scope.

(** ** JavaScript values used by the service *)

(** A JavaScript [number] is an IEEE 754 binary64 value.  Numbers that hold
    fractions (confidence scores, the block rate) are primitive floats, so
    literals such as [0.7] denote the double the JavaScript parser yields and
    [>] is the IEEE comparison.  Numbers that hold counts (byte sizes, pixel
    dimensions, array lengths, limits) are integers and are modelled as [Z];
    an optional one is an [option Z]. *)
Module Js.

Definition number := float.

(** [a > b] on numbers. *)
Definition gt (a b : number) : bool := (b <? a)%float.

(** An integer-valued number as a double (round to nearest, exact below
    2^53). *)
Definition of_Z (z : Z) : number := SF2Prim (binary_normalize prec emax z 0 false).

(** Truthiness of [number | undefined]: [undefined] and [0] are falsy. *)
Definition truthy (n : option Z) : bool :=
  match n with
  | Some z => negb (z =? 0)
  | None => false
  end.

(** [n || 0] for [n : number | undefined]. *)
Definition or_zero (n : option Z) : Z :=
  match n with
  | Some z => z
  | None => 0
  end.

(** Truthiness of [string | undefined]: [undefined] and [''] are falsy. *)
Definition truthy_str (s : option string) : bool :=
  match s with
  | Some EmptyString => false
  | Some _ => true
  | None => false
  end.

(** An [Error] object; [name] is the default ["Error"]. *)
Record Error := mkError { message : string }.

(** [String(error)], that is [Error.prototype.toString]. *)
Definition String_of_error (e : Error) : string :=
  match message e with
  | EmptyString => "Error"
  | m => "Error: " ++ m
  end.

(** [Array.prototype.includes] on an array of strings. *)
Definition includes (l : list string) (s : string) : bool :=
  existsb (String.eqb s) l.

(** [Array.prototype.slice(start)]: a negative [start] counts from the end. *)
Definition slice {A : Type} (start : Z) (l : list A) : list A :=
  let len := Z.of_nat (length l) in
  let k := if start <? 0 then Z.max (len + start) 0 else Z.min start len in
  skipn (Z.to_nat k) l.

(** [Array.prototype.splice(0, deleteCount)], as it leaves the array. *)
Definition splice0 {A : Type} (deleteCount : Z) (l : list A) : list A :=
  let len := Z.of_nat (length l) in
  skipn (Z.to_nat (Z.min (Z.max deleteCount 0) len)) l.

(** Two numbers are comparable when neither is [NaN]. *)
Definition comparable (x y : number) : Prop :=
  SFcompare (Prim2SF x) (Prim2SF y) <> None.

End Js.

(** ** Configuration *)

Definition NSFW_CONFIDENCE_THRESHOLD : Js.number := 0.7%float.
Definition MAX_IMAGE_SIZE_MB : Z := 50.
Definition MAX_IMAGE_DIMENSION : Z := 4096.

(** The literal bound of the in-memory audit log. *)
Definition AUDIT_LOG_BOUND : Z := 10000.

(** ** Data model *)

Inductive Category := safe | nsfw | uncertain.

Record NSFWDetectionResult := {
  isNSFW : bool;
  confidence : Js.number;
  category : Category;
  error : option string
}.

Record Dimensions := { dim_width : Z; dim_height : Z }.

Record NSFWAuditLog := {
  timestamp : Z;
  log_userId : option string;
  log_fileName : string;
  log_isNSFW : bool;
  log_confidence : Js.number;
  log_fileSize : Z;
  log_dimensions : option Dimensions;
  log_error : option string
}.

(** [Omit<NSFWAuditLog, 'timestamp'>], the argument of [logAudit]. *)
Record AuditFields := {
  f_userId : option string;
  f_fileName : string;
  f_isNSFW : bool;
  f_confidence : Js.number;
  f_fileSize : Z;
  f_dimensions : option Dimensions;
  f_error : option string
}.

(** ** The process state and the effects of the module *)

(** The two locations [downloadModel] looks at: [MODEL_CACHE_DIR] and the
    file [nsfw.onnx] in it. *)
Inductive Path := CacheDir | ModelFile.

(** What the service can observe of the file system: whether the two paths
    exist, and the error [fs.mkdirSync] raises when the directory cannot be
    created (permissions, read-only volume). *)
Record FileSystem := {
  dir_exists : bool;
  model_exists : bool;
  mkdir_failure : option Js.Error
}.

(** [ort.InferenceSession], created from a model path. *)
Inductive InferenceSession := SessionOf (modelPath : Path).

(** A [Promise<void>] once settled.  Calls are run to completion one after
    the other, so a pending promise is never observed between two calls. *)
Inductive Promise := Fulfilled | Rejected (reason : Js.Error).

(** The calls into [sharp] and [fs], recorded in the order they are made. *)
Inductive LibCall :=
| SharpMetadata
| SharpResize
| SharpRaw
| FsExistsSync (p : Path)
| FsMkdirSync (p : Path).

(** The module-level variables ([auditLogs], [modelSession],
    [modelLoadPromise]) together with the environment the module acts on. *)
Record World := {
  auditLogs : list NSFWAuditLog;
  modelSession : option InferenceSession;
  modelLoadPromise : option Promise;
  disk : FileSystem;
  clock : Z;
  calls : list LibCall
}.

Definition set_auditLogs (l : list NSFWAuditLog) (w : World) : World :=
  {| auditLogs := l; modelSession := modelSession w;
     modelLoadPromise := modelLoadPromise w; disk := disk w;
     clock := clock w; calls := calls w |}.

Definition set_modelLoadPromise (p : option Promise) (w : World) : World :=
  {| auditLogs := auditLogs w; modelSession := modelSession w;
     modelLoadPromise := p; disk := disk w;
     clock := clock w; calls := calls w |}.

Definition set_disk (d : FileSystem) (w : World) : World :=
  {| auditLogs := auditLogs w; modelSession := modelSession w;
     modelLoadPromise := modelLoadPromise w; disk := d;
     clock := clock w; calls := calls w |}.

Definition record_call (c : LibCall) (w : World) : World :=
  {| auditLogs := auditLogs w; modelSession := modelSession w;
     modelLoadPromise := modelLoadPromise w; disk := disk w;
     clock := clock w; calls := (calls w ++ [c])%list |}.

(** The environment moves on between two calls: time passes and the file
    system may change. *)
Definition set_clock (t : Z) (w : World) : World :=
  {| auditLogs := auditLogs w; modelSession := modelSession w;
     modelLoadPromise := modelLoadPromise w; disk := disk w;
     clock := t; calls := calls w |}.

(** How a piece of code completes: with a value, or by throwing. *)
Inductive Completion (A : Type) :=
| Normal (a : A)
| Throw (e : Js.Error).

Arguments Normal {A} a.
Arguments Throw {A} e.

(** Code that reads and writes the process state and may throw. *)
Definition M (A : Type) : Type := World -> Completion A * World.

Definition ret {A} (a : A) : M A := fun w => (Normal a, w).

Definition throw {A} (e : Js.Error) : M A := fun w => (Throw e, w).

Definition bind {A B} (c : M A) (k : A -> M B) : M B :=
  fun w =>
    match c w with
    | (Normal a, w') => k a w'
    | (Throw e, w') => (Throw e, w')
    end.

(** [try { body } catch (error) { handler }]. *)
Definition try_catch {A} (body : M A) (handler : Js.Error -> M A) : M A :=
  fun w =>
    match body w with
    | (Normal a, w') => (Normal a, w')
    | (Throw e, w') => handler e w'
    end.

Declare Scope js_scope.
Delimit Scope js_scope with js.

Notation "x <- c ;; k" := (bind c (fun x => k))
  (at level 100, c at next level, right associativity) : js_scope.
Notation "c ;;; k" := (bind c (fun _ => k))
  (at level 100, right associativity) : js_scope.

Local Open Scope js_scope.

(** A library call: its outcome is given, and the call is recorded. *)
Definition lib_call {A} (c : LibCall) (outcome : Completion A) : M A :=
  fun w => (outcome, record_call c w).

(** [await p] on a settled promise. *)
Definition await (p : Promise) : M unit :=
  match p with
  | Fulfilled => ret tt
  | Rejected reason => throw reason
  end.

(** *** [fs] *)

Definition existsSync (p : Path) : M bool :=
  fun w =>
    (Normal match p with
            | CacheDir => dir_exists (disk w)
            | ModelFile => model_exists (disk w)
            end,
     record_call (FsExistsSync p) w).

(** [fs.mkdirSync(MODEL_CACHE_DIR, { recursive: true })]. *)
Definition mkdirSync (p : Path) : M unit :=
  fun w =>
    let w' := record_call (FsMkdirSync p) w in
    match mkdir_failure (disk w) with
    | Some e => (Throw e, w')
    | None =>
        (Normal tt,
         set_disk {| dir_exists := true;
                     model_exists := model_exists (disk w);
                     mkdir_failure := None |} w')
    end.

(** ** Model initialisation *)

Definition downloadModel : M Path :=
  cached_dir <- existsSync CacheDir ;;
  (if negb cached_dir then mkdirSync CacheDir else ret tt) ;;;
  let modelPath := ModelFile in
  cached <- existsSync modelPath ;;
  if cached then ret modelPath
  else try_catch (ret modelPath) (fun _ => throw (Js.mkError "Failed to initialize NSFW model")).

(** The body of the async arrow function assigned to [modelLoadPromise];
    the creation of the session is commented out in the source, so
    [modelSession] is not assigned. *)
Definition loadModel : M unit :=
  try_catch (modelPath <- downloadModel ;; ret tt) (fun error => throw error).

Definition initializeModel : M (option InferenceSession) :=
  fun w =>
    match modelSession w with
    | Some session => (Normal (Some session), w)
    | None =>
        match modelLoadPromise w with
        | Some p => (await p ;;; fun w' => (Normal (modelSession w'), w')) w
        | None =>
            let (settled, w1) := loadModel w in
            let p := match settled with
                     | Normal _ => Fulfilled
                     | Throw e => Rejected e
                     end in
            (await p ;;; fun w' => (Normal (modelSession w'), w'))
              (set_modelLoadPromise (Some p) w1)
        end
    end.

(** ** Image preprocessing *)

Definition Buffer := list Byte.byte.

(** What [sharp(buffer).metadata()] resolves to. *)
Record Metadata := {
  format : option string;
  width : option Z;
  height : option Z
}.

(** The image library.  Each operation is a function of the bytes it is
    given and either resolves or rejects:
    [metadata] is [sharp(b).metadata()],
    [resize_png] is [sharp(b).resize(224, 224, {fit: 'cover', position:
    'center'}).png().toBuffer()], and
    [raw_pixels] is [sharp(b).raw().toBuffer({rawOptions: {width: 224,
    height: 224, channels: 3}})]. *)
Record Sharp := {
  metadata : Buffer -> Completion Metadata;
  resize_png : Buffer -> Completion Buffer;
  raw_pixels : Buffer -> Completion Buffer
}.

(** [224 * 224 * 3], the length of the [Float32Array]. *)
Definition TENSOR_LENGTH : nat := 224 * 224 * 3.

(** [Math.fround]: the double nearest-even rounded to binary32, as storing
    into a [Float32Array] does. *)
Definition fround (x : Js.number) : Js.number :=
  match Prim2SF x with
  | S754_finite s m e =>
      match binary_normalize 24 128 (cond_Zopp s (Zpos m)) e s with
      | S754_finite s' m' e' =>
          SF2Prim (binary_normalize prec emax (cond_Zopp s' (Zpos m')) e' s')
      | other => SF2Prim other
      end
  | _ => x
  end.

(** [pixels[i] / 127.5 - 1.0] for one byte. *)
Definition normalize_sample (p : Byte.byte) : Js.number :=
  (Js.of_Z (Z.of_N (Byte.to_N p)) / 127.5 - 1.0)%float.

(** The normalisation loop over a zero-filled [Float32Array(224 * 224 * 3)]:
    index [i] is written for [i < pixels.length]; a write past the end of
    a typed array is ignored and an unwritten slot stays [0]. *)
Definition fill_tensor (pixels : Buffer) : list Js.number :=
  let written := map (fun p => fround (normalize_sample p)) (firstn TENSOR_LENGTH pixels) in
  (written ++ repeat 0%float (TENSOR_LENGTH - length written))%list.

(** [a > b] where [a] may be [undefined] (then the comparison is false). *)
Definition exceeds (a : option Z) (b : Z) : bool :=
  match a with
  | Some z => b <? z
  | None => false
  end.

Section Service.

Variable sharp : Sharp.

Definition preprocessImage (imageBuffer : Buffer) : M (option (list Js.number)) :=
  try_catch
    (md <- lib_call SharpMetadata (metadata sharp imageBuffer) ;;
     if negb (Js.truthy (width md)) || negb (Js.truthy (height md))
     then throw (Js.mkError "Invalid image dimensions")
     else if exceeds (width md) MAX_IMAGE_DIMENSION
             || exceeds (height md) MAX_IMAGE_DIMENSION
     then ret None
     else
       resizedBuffer <- lib_call SharpResize (resize_png sharp imageBuffer) ;;
       pixels <- lib_call SharpRaw (raw_pixels sharp resizedBuffer) ;;
       let tensor := fill_tensor pixels in
       ret (Some tensor))
    (fun error => ret None).

(** ** The audit log *)

Definition logAudit (log : AuditFields) : M unit :=
  fun w =>
    let auditEntry :=
      {| timestamp := clock w;
         log_userId := f_userId log;
         log_fileName := f_fileName log;
         log_isNSFW := f_isNSFW log;
         log_confidence := f_confidence log;
         log_fileSize := f_fileSize log;
         log_dimensions := f_dimensions log;
         log_error := f_error log |} in
    let pushed := (auditLogs w ++ [auditEntry])%list in
    (Normal tt,
     set_auditLogs
       (if AUDIT_LOG_BOUND <? Z.of_nat (length pushed)
        then Js.splice0 (Z.of_nat (length pushed) - AUDIT_LOG_BOUND) pushed
        else pushed)
       w).

Definition getAuditLogs (limit : Z) : M (list NSFWAuditLog) :=
  fun w => (Normal (rev (Js.slice (- limit) (auditLogs w))), w).

(** [getAuditLogs()]: the parameter defaults to [100]. *)
Definition getAuditLogs_default : M (list NSFWAuditLog) := getAuditLogs 100.

Definition clearAuditLogs : M unit :=
  fun w => (Normal tt, set_auditLogs [] w).

Record Stats := {
  totalChecks : Z;
  blockedCount : Z;
  allowedCount : Z;
  blockRate : Js.number
}.

Definition getNSFWStats : M Stats :=
  fun w =>
    let totalChecks := Z.of_nat (length (auditLogs w)) in
    let blockedCount := Z.of_nat (length (filter log_isNSFW (auditLogs w))) in
    let allowedCount := totalChecks - blockedCount in
    (Normal {| totalChecks := totalChecks;
               blockedCount := blockedCount;
               allowedCount := allowedCount;
               blockRate :=
                 if 0 <? totalChecks
                 then (Js.of_Z blockedCount / Js.of_Z totalChecks * 100)%float
                 else 0%float |},
     w).

(** ** Detection *)

(** [metadata.width && metadata.height ? { width, height } : undefined]. *)
Definition dimensions_of (md : Metadata) : option Dimensions :=
  if Js.truthy (width md) && Js.truthy (height md)
  then Some {| dim_width := Js.or_zero (width md);
               dim_height := Js.or_zero (height md) |}
  else None.

(** The verdict built from a confidence score: [isNSFW] and the nested
    conditional that selects the category. *)
Definition verdict (confidence : Js.number) : NSFWDetectionResult :=
  let isNSFW := Js.gt confidence NSFW_CONFIDENCE_THRESHOLD in
  {| isNSFW := isNSFW;
     confidence := confidence;
     category :=
       if Js.gt confidence NSFW_CONFIDENCE_THRESHOLD then nsfw
       else if Js.gt confidence 0.4%float then uncertain
       else safe;
     error := None |}.

Definition detectNSFW (imageBuffer : Buffer) (fileName : string)
    (userId : option string) (fileSize : option Z) : M NSFWDetectionResult :=
  try_catch
    (if Js.truthy fileSize && exceeds fileSize (MAX_IMAGE_SIZE_MB * 1024 * 1024)
     then
       let result := {| isNSFW := true; confidence := 1.0%float;
                        category := nsfw;
                        error := Some "File size exceeds limit" |} in
       logAudit {| f_userId := userId; f_fileName := fileName;
                   f_isNSFW := true; f_confidence := 1.0%float;
                   f_fileSize := Js.or_zero fileSize;
                   f_dimensions := None;
                   f_error := Some "File size exceeds limit" |} ;;;
       ret result
     else
       md <- lib_call SharpMetadata (metadata sharp imageBuffer) ;;
       if negb (Js.truthy_str (format md))
          || negb (Js.includes ["jpeg"; "png"; "webp"; "gif"]
                               (match format md with Some f => f | None => "" end))
       then
         let result := {| isNSFW := true; confidence := 1.0%float;
                          category := nsfw;
                          error := Some "Invalid image format" |} in
         logAudit {| f_userId := userId; f_fileName := fileName;
                     f_isNSFW := true; f_confidence := 1.0%float;
                     f_fileSize := Js.or_zero fileSize;
                     f_dimensions := dimensions_of md;
                     f_error := Some "Invalid image format" |} ;;;
         ret result
       else
         tensorData <- preprocessImage imageBuffer ;;
         match tensorData with
         | None => throw (Js.mkError "Image preprocessing failed")
         | Some _ =>
             let confidence := 0.15%float in
             let detectionResult := verdict confidence in
             logAudit {| f_userId := userId; f_fileName := fileName;
                         f_isNSFW := isNSFW detectionResult;
                         f_confidence := confidence;
                         f_fileSize := Js.or_zero fileSize;
                         f_dimensions := dimensions_of md;
                         f_error := None |} ;;;
             ret detectionResult
         end)
    (fun error =>
       let result := {| isNSFW := true; confidence := 1.0%float;
                        category := nsfw;
                        error := Some (Js.String_of_error error) |} in
       logAudit {| f_userId := userId; f_fileName := fileName;
                   f_isNSFW := true; f_confidence := 1.0%float;
                   f_fileSize := Js.or_zero fileSize;
                   f_dimensions := None;
                   f_error := Some (Js.String_of_error error) |} ;;;
       ret result).

End Service.

(** * Vocabulary of the properties *)

(** The last [n] elements of [l] (all of [l] when it has fewer). *)
Definition last_n {A : Type} (n : nat) (l : list A) : list A :=
  skipn (length l - n) l.

(** The record [logAudit] builds at time [now]. *)
Definition entry_at (now : Z) (log : AuditFields) : NSFWAuditLog :=
  {| timestamp := now;
     log_userId := f_userId log;
     log_fileName := f_fileName log;
     log_isNSFW := f_isNSFW log;
     log_confidence := f_confidence log;
     log_fileSize := f_fileSize log;
     log_dimensions := f_dimensions log;
     log_error := f_error log |}.

(** A run of [logAudit] calls, each at its own time. *)
Definition record_all (es : list (Z * AuditFields)) (w : World) : World :=
  fold_left (fun w e => snd (logAudit (snd e) (set_clock (fst e) w))) es w.

Definition entries (es : list (Z * AuditFields)) : list NSFWAuditLog :=
  map (fun e => entry_at (fst e) (snd e)) es.

(** The number of records that satisfy [p]. *)
Fixpoint count_records (p : NSFWAuditLog -> bool) (l : list NSFWAuditLog) : nat :=
  match l with
  | [] => 0
  | r :: l' => (if p r then 1 else 0) + count_records p l'
  end.

(** ** Concrete scenarios *)

Module Scenario.

(** The process at start: empty log, no model, an empty cache location. *)
Definition start : World :=
  {| auditLogs := [];
     modelSession := None;
     modelLoadPromise := None;
     disk := {| dir_exists := false; model_exists := false; mkdir_failure := None |};
     clock := 0;
     calls := [] |}.

(** What [detectNSFW] logs for a blocked and for an allowed upload. *)
Definition blocked_fields (fileName : string) : AuditFields :=
  {| f_userId := None; f_fileName := fileName; f_isNSFW := true;
     f_confidence := 1.0%float; f_fileSize := 0; f_dimensions := None;
     f_error := Some "Invalid image format" |}.

Definition allowed_fields (fileName : string) : AuditFields :=
  {| f_userId := Some "u1"; f_fileName := fileName; f_isNSFW := false;
     f_confidence := 0.15%float; f_fileSize := 1024;
     f_dimensions := Some {| dim_width := 640; dim_height := 480 |};
     f_error := None |}.

(** The times [t], [t + 1], ..., [n] of them. *)
Fixpoint times_from (t : Z) (n : nat) : list Z :=
  match n with
  | O => []
  | S n' => t :: times_from (t + 1) n'
  end.

(** 10,001 record operations, at times 0, 1, ..., 10000. *)
Definition many_records : list (Z * AuditFields) :=
  map (fun t => (t, allowed_fields "a.png")) (times_from 0 (Z.to_nat 10001)).

(** A process whose log holds 10,000 records, logged at times 0, ..., 9999. *)
Definition full_log : World :=
  {| auditLogs :=
       map (fun t => entry_at t (allowed_fields "a.png"))
           (times_from 0 (Z.to_nat 10000));
     modelSession := None;
     modelLoadPromise := None;
     disk := {| dir_exists := false; model_exists := false; mkdir_failure := None |};
     clock := 10000;
     calls := [] |}.

(** Two records, logged at times 1 and 2. *)
Definition two_records : list (Z * AuditFields) :=
  [(1, blocked_fields "first.bmp"); (2, allowed_fields "second.png")].

(** Four records of which three are blocked. *)
Definition three_of_four : list (Z * AuditFields) :=
  [(1, blocked_fields "a.bmp"); (2, allowed_fields "b.png");
   (3, blocked_fields "c.bmp"); (4, blocked_fields "d.bmp")].

(** What [toBuffer] throws for an options object without a boolean
    [resolveWithObject]; the object [{ rawOptions: ... }] that
    [preprocessImage] passes is one. *)
Definition invalid_toBuffer_options : Js.Error :=
  Js.mkError
    "Expected boolean for resolveWithObject but received undefined of type undefined".

(** An upload and three behaviours of the image library on it: a readable
    640x480 PNG, a JPEG whose width is over the limit, and bytes that are no
    image at all.  For the PNG the metadata and the resize succeed; the raw
    decoding call is rejected for its options in all three, as the library
    does before it looks at the image. *)
Definition upload : Buffer := [Byte.x89; Byte.x50; Byte.x4e; Byte.x47].

Definition sharp_png : Sharp :=
  {| metadata := fun _ =>
       Normal {| format := Some "png"; width := Some 640; height := Some 480 |};
     resize_png := fun b => Normal b;
     raw_pixels := fun _ => Throw invalid_toBuffer_options |}.

Definition sharp_wide : Sharp :=
  {| metadata := fun _ =>
       Normal {| format := Some "jpeg"; width := Some 5000; height := Some 100 |};
     resize_png := fun b => Normal b;
     raw_pixels := fun _ => Throw invalid_toBuffer_options |}.

Definition sharp_unreadable : Sharp :=
  {| metadata := fun _ =>
       Throw (Js.mkError "Input buffer contains unsupported image format");
     resize_png := fun _ =>
       Throw (Js.mkError "Input buffer contains unsupported image format");
     raw_pixels := fun _ => Throw invalid_toBuffer_options |}.

(** The cache directory is missing and cannot be created. *)
Definition permission_denied : Js.Error :=
  Js.mkError "EACCES: permission denied, mkdir '.model-cache'".

Definition read_only_disk : FileSystem :=
  {| dir_exists := false; model_exists := false;
     mkdir_failure := Some permission_denied |}.

Definition repaired_disk : FileSystem :=
  {| dir_exists := true; model_exists := true; mkdir_failure := None |}.

Definition start_read_only : World :=
  {| auditLogs := [];
     modelSession := None;
     modelLoadPromise := None;
     disk := read_only_disk;
     clock := 0;
     calls := [] |}.

End Scenario.

(** ** Stages of a detection call *)

(** The declared size is present and above the cap: the first test of
    [detectNSFW]. *)
Definition oversize (fileSize : option Z) : bool :=
  Js.truthy fileSize && exceeds fileSize (MAX_IMAGE_SIZE_MB * 1024 * 1024).

(** The format test of [detectNSFW] rejects the metadata. *)
Definition format_rejected (md : Metadata) : bool :=
  negb (Js.truthy_str (format md))
  || negb (Js.includes ["jpeg"; "png"; "webp"; "gif"]
                       (match format md with Some f => f | None => "" end)).

(** The fixed verdict of a failed call, with its explanation. *)
Definition fail_closed (msg : string) : NSFWDetectionResult :=
  {| isNSFW := true; confidence := 1.0%float; category := nsfw; error := Some msg |}.

(** What a failed call logs. *)
Definition failure_fields (fileName : string) (userId : option string)
    (fileSize : option Z) (dims : option Dimensions) (msg : string) : AuditFields :=
  {| f_userId := userId; f_fileName := fileName; f_isNSFW := true;
     f_confidence := 1.0%float; f_fileSize := Js.or_zero fileSize;
     f_dimensions := dims; f_error := Some msg |}.

(** What a successful call logs. *)
Definition success_fields (fileName : string) (userId : option string)
    (fileSize : option Z) (md : Metadata) : AuditFields :=
  {| f_userId := userId; f_fileName := fileName;
     f_isNSFW := isNSFW (verdict 0.15%float);
     f_confidence := 0.15%float; f_fileSize := Js.or_zero fileSize;
     f_dimensions := dimensions_of md; f_error := None |}.

(** Several library calls recorded in a row. *)
Definition record_calls (cs : list LibCall) (w : World) : World :=
  {| auditLogs := auditLogs w; modelSession := modelSession w;
     modelLoadPromise := modelLoadPromise w; disk := disk w;
     clock := clock w; calls := (calls w ++ cs)%list |}.

(** A call into the image library (as opposed to the file system). *)
Definition is_sharp_call (c : LibCall) : bool :=
  match c with
  | SharpMetadata | SharpResize | SharpRaw => true
  | FsExistsSync _ | FsMkdirSync _ => false
  end.

(** A stage of the pipeline failed: the declared size is over the cap, the
    metadata cannot be read, the format is not allowed, or preprocessing
    yields no tensor. *)
Inductive pipeline_failed (sharp : Sharp) (imageBuffer : Buffer)
    (fileSize : option Z) : Prop :=
| failed_oversize :
    oversize fileSize = true ->
    pipeline_failed sharp imageBuffer fileSize
| failed_metadata (e : Js.Error) :
    metadata sharp imageBuffer = Throw e ->
    pipeline_failed sharp imageBuffer fileSize
| failed_format (md : Metadata) :
    metadata sharp imageBuffer = Normal md ->
    format_rejected md = true ->
    pipeline_failed sharp imageBuffer fileSize
| failed_preprocessing (w : World) :
    fst (preprocessImage sharp imageBuffer w) = Normal None ->
    pipeline_failed sharp imageBuffer fileSize.

(** ** What happens to the process between two initialisations *)

(** A call to one of the module's functions, or a change of the environment
    (the file system is repaired, time passes). *)
Inductive Step :=
| StepDetect (sharp : Sharp) (imageBuffer : Buffer) (fileName : string)
    (userId : option string) (fileSize : option Z)
| StepGetAuditLogs (limit : Z)
| StepClearAuditLogs
| StepGetNSFWStats
| StepInitializeModel
| StepEnvironment (d : FileSystem) (t : Z).

Definition step (w : World) (s : Step) : World :=
  match s with
  | StepDetect sharp imageBuffer fileName userId fileSize =>
      snd (detectNSFW sharp imageBuffer fileName userId fileSize w)
  | StepGetAuditLogs limit => snd (getAuditLogs limit w)
  | StepClearAuditLogs => snd (clearAuditLogs w)
  | StepGetNSFWStats => snd (getNSFWStats w)
  | StepInitializeModel => snd (initializeModel w)
  | StepEnvironment d t => set_clock t (set_disk d w)
  end.

Definition steps (l : list Step) (w : World) : World := fold_left step l w.

(** No session, and a load promise that was rejected with [e]. *)
Definition poisoned (e : Js.Error) (w : World) : Prop :=
  modelSession w = None /\ modelLoadPromise w = Some (Rejected e).

(** Retrying after a failure: once an initialisation has failed, the next
    call, whatever the file system has become, behaves as a call from the
    uninitialised state. *)
Definition retries_after_failure : Prop :=
  forall (w w1 : World) (e : Js.Error),
    modelSession w = None ->
    modelLoadPromise w = None ->
    initializeModel w = (Throw e, w1) ->
    forall d : FileSystem,
      fst (initializeModel (set_disk d w1)) =
      fst (initializeModel (set_disk d (set_modelLoadPromise None w1))).

(** ** Vocabulary of the further properties *)

(** A number between -1 and 1, bounds included. *)
Definition in_unit_range (x : Js.number) : bool :=
  ((-1 <=? x) && (x <=? 1))%float.

(** The calls into [fs] among the calls made so far. *)
Definition fs_calls (w : World) : list LibCall :=
  filter (fun c => negb (is_sharp_call c)) (calls w).

(** [x] blocks: the number of records with [isNSFW = true], as [getNSFWStats]
    counts them. *)
Definition blocked_in (l : list NSFWAuditLog) : Z :=
  Z.of_nat (length (filter log_isNSFW l)).

(** Times that never decrease from one to the next. *)
Fixpoint nondecreasing (ts : list Z) : Prop :=
  match ts with
  | [] => True
  | t :: ts' => Forall (fun t' => t <= t') ts' /\ nondecreasing ts'
  end.

(** Records in which none is newer than one before it. *)
Fixpoint newest_first (l : list NSFWAuditLog) : Prop :=
  match l with
  | [] => True
  | r :: l' => Forall (fun r' => timestamp r' <= timestamp r) l' /\ newest_first l'
  end.

(** The raw decoding call of [preprocessImage] is rejected for every buffer.
    The installed library behaves so: [toBuffer] requires a boolean
    [resolveWithObject] in an options object, and the object passed at that
    call, [{ rawOptions: ... }], has none. *)
Definition raw_decoding_rejected (sharp : Sharp) : Prop :=
  forall b : Buffer, exists e : Js.Error, raw_pixels sharp b = Throw e.

(** * Properties *)

(** ** Lists: the last elements of an array *)

Section LastN.

Context {A : Type}.
Implicit Types l : list A.

Lemma last_n_length n l : length (last_n n l) = Nat.min n (length l).
Proof. unfold last_n. rewrite length_skipn. lia. Qed.

Lemma last_n_all n l : (length l <= n)%nat -> last_n n l = l.
Proof.
  intros H. unfold last_n. replace (length l - n)%nat with 0%nat by lia.
  reflexivity.
Qed.

Lemma last_n_incl n l x : In x (last_n n l) -> In x l.
Proof.
  unfold last_n. intros H.
  rewrite <- (firstn_skipn (length l - n) l). apply in_or_app. now right.
Qed.

Lemma skipn_past_prefix (k j : nat) l l' :
  (k <= length l)%nat ->
  skipn (k + j) (l ++ l') = skipn j (skipn k l ++ l').
Proof.
  intros Hk.
  rewrite <- (firstn_skipn k l) at 1. rewrite <- app_assoc.
  rewrite skipn_app.
  assert (Hlen : length (firstn k l) = k) by (rewrite length_firstn; lia).
  rewrite Hlen. rewrite skipn_all2 by lia.
  replace (k + j - k)%nat with j by lia. reflexivity.
Qed.

(** Trimming to the last [n] before appending does not change the last
    [n] of the result. *)
Lemma last_n_app_trim n l l' :
  last_n n (last_n n l ++ l') = last_n n (l ++ l').
Proof.
  destruct (Nat.le_gt_cases (length l) n) as [Hle|Hgt].
  - now rewrite (last_n_all n l Hle).
  - unfold last_n at 1 3. rewrite !length_app, last_n_length.
    replace (Nat.min n (length l) + length l' - n)%nat with (length l') by lia.
    replace (length l + length l' - n)%nat
      with ((length l - n) + length l')%nat by lia.
    rewrite skipn_past_prefix by lia. reflexivity.
Qed.

Lemma js_slice_negative (limit : Z) l :
  0 < limit -> Js.slice (- limit) l = last_n (Z.to_nat limit) l.
Proof.
  intros H. unfold Js.slice, last_n.
  destruct (Z.ltb_spec (- limit) 0) as [_|]; [|lia].
  f_equal. lia.
Qed.

Lemma js_slice_zero l : Js.slice (- 0) l = l.
Proof.
  unfold Js.slice. change (- 0 <? 0) with false. cbv beta iota zeta.
  rewrite Z.min_l by lia. reflexivity.
Qed.

Lemma js_splice0_overflow (bound : Z) l :
  0 <= bound -> bound < Z.of_nat (length l) ->
  Js.splice0 (Z.of_nat (length l) - bound) l = last_n (Z.to_nat bound) l.
Proof.
  intros H0 H. unfold Js.splice0, last_n. f_equal. lia.
Qed.

End LastN.

(** ** Comparison of doubles *)

Module JsFacts.

Lemma SFcompare_antisym (x y : spec_float) :
  SFcompare y x = option_map CompOpp (SFcompare x y).
Proof.
  destruct x as [sx|sx| |sx mx ex], y as [sy|sy| |sy my ey]; simpl;
    try destruct sx; try destruct sy; try reflexivity.
  - rewrite (Z.compare_antisym ex ey).
    destruct (ex ?= ey)%Z; simpl; try reflexivity.
    rewrite !Pos.compare_cont_antisym. reflexivity.
  - rewrite (Z.compare_antisym ex ey).
    destruct (ex ?= ey)%Z; simpl; try reflexivity.
    rewrite Pos.compare_cont_antisym. reflexivity.
Qed.

(** [x <= y] excludes [x > y]. *)
Lemma leb_not_gt (x y : Js.number) :
  (x <=? y)%float = true -> Js.gt x y = false.
Proof.
  unfold Js.gt. rewrite leb_spec, ltb_spec. unfold SFleb, SFltb.
  rewrite (SFcompare_antisym (Prim2SF x) (Prim2SF y)).
  destruct (SFcompare (Prim2SF x) (Prim2SF y)) as [[ | | ]|]; simpl;
    intros H; congruence.
Qed.

Lemma leb_comparable (x y : Js.number) :
  (x <=? y)%float = true -> Js.comparable x y.
Proof.
  unfold Js.comparable. rewrite leb_spec. unfold SFleb.
  destruct (SFcompare (Prim2SF x) (Prim2SF y)); congruence.
Qed.

Lemma comparable_right (x y z : Js.number) :
  Js.comparable x y -> Prim2SF z <> S754_nan -> Js.comparable y z.
Proof.
  unfold Js.comparable.
  destruct (Prim2SF x), (Prim2SF y), (Prim2SF z); simpl; congruence.
Qed.

(** On comparable numbers, not [x > y] is [x <= y]. *)
Lemma not_gt_leb (x y : Js.number) :
  Js.comparable x y -> Js.gt x y = false -> (x <=? y)%float = true.
Proof.
  unfold Js.comparable, Js.gt. rewrite leb_spec, ltb_spec. unfold SFleb, SFltb.
  rewrite (SFcompare_antisym (Prim2SF x) (Prim2SF y)).
  destruct (SFcompare (Prim2SF x) (Prim2SF y)) as [[ | | ]|]; simpl;
    intros H1 H2; congruence.
Qed.

Lemma Prim2SF_mid :
  Prim2SF 0.4%float = S754_finite false 7205759403792794 (-54).
Proof. vm_compute. reflexivity. Qed.

Lemma Prim2SF_high :
  Prim2SF NSFW_CONFIDENCE_THRESHOLD = S754_finite false 6305039478318694 (-53).
Proof. vm_compute. reflexivity. Qed.

(** A number at most [0.4] is not above the threshold [0.7]. *)
Lemma leb_mid_not_gt_high (c : Js.number) :
  (c <=? 0.4)%float = true -> Js.gt c NSFW_CONFIDENCE_THRESHOLD = false.
Proof.
  unfold Js.gt. rewrite leb_spec, ltb_spec. unfold SFleb, SFltb.
  rewrite Prim2SF_mid, Prim2SF_high.
  destruct (Prim2SF c) as [s|s| |s m e]; cbv beta iota delta [SFcompare];
    try destruct s; try reflexivity; try discriminate.
  destruct (Z.compare_spec e (-54)) as [He|He|He]; try discriminate.
  - subst e. reflexivity.
  - intros _. destruct (Z.compare_spec (-53) e); try reflexivity; lia.
Qed.

End JsFacts.

(** ** The decision policy *)

Section DecisionPolicy.

Variable c : Js.number.
Hypothesis c_lower : (0 <=? c)%float = true.
Hypothesis c_upper : (c <=? 1)%float = true.

Lemma comparable_high : Js.comparable c NSFW_CONFIDENCE_THRESHOLD.
Proof.
  apply (JsFacts.comparable_right 0%float).
  - now apply JsFacts.leb_comparable.
  - rewrite JsFacts.Prim2SF_high. discriminate.
Qed.

Lemma comparable_mid : Js.comparable c 0.4%float.
Proof.
  apply (JsFacts.comparable_right 0%float).
  - now apply JsFacts.leb_comparable.
  - rewrite JsFacts.Prim2SF_mid. discriminate.
Qed.

Lemma category_cases :
  (Js.gt c NSFW_CONFIDENCE_THRESHOLD = true /\ category (verdict c) = nsfw) \/
  (Js.gt c NSFW_CONFIDENCE_THRESHOLD = false /\ Js.gt c 0.4%float = true
   /\ category (verdict c) = uncertain) \/
  (Js.gt c NSFW_CONFIDENCE_THRESHOLD = false /\ Js.gt c 0.4%float = false
   /\ category (verdict c) = safe).
Proof.
  unfold verdict; cbn [category].
  destruct (Js.gt c NSFW_CONFIDENCE_THRESHOLD); [now left|].
  destruct (Js.gt c 0.4%float); [right; left | right; right]; auto.
Qed.

End DecisionPolicy.

(** C2: for a confidence in [0,1] the category is [nsfw] exactly when
    [confidence > 0.7], [uncertain] exactly when [0.4 < confidence <= 0.7] and
    [safe] exactly when [confidence <= 0.4]; [isNSFW] holds exactly when
    [confidence > 0.7], so [uncertain] and [safe] come with [isNSFW = false];
    at the boundaries, [0.7] is [uncertain] and [0.4] is [safe]. *)
Theorem decision_policy_thresholds (c : Js.number) :
  (0 <=? c)%float = true ->
  (c <=? 1)%float = true ->
  (category (verdict c) = nsfw <-> Js.gt c 0.7%float = true) /\
  (category (verdict c) = uncertain <->
     Js.gt c 0.4%float = true /\ (c <=? 0.7)%float = true) /\
  (category (verdict c) = safe <-> (c <=? 0.4)%float = true) /\
  (isNSFW (verdict c) = true <-> Js.gt c 0.7%float = true) /\
  (category (verdict c) = uncertain -> isNSFW (verdict c) = false) /\
  (category (verdict c) = safe -> isNSFW (verdict c) = false) /\
  category (verdict 0.7%float) = uncertain /\
  category (verdict 0.4%float) = safe.
Proof.
  intros Hlo Hhi.
  pose proof (comparable_high c Hlo) as Chigh.
  pose proof (comparable_mid c Hlo) as Cmid.
  change 0.7%float with NSFW_CONFIDENCE_THRESHOLD.
  assert (Hnsfw : isNSFW (verdict c) = Js.gt c NSFW_CONFIDENCE_THRESHOLD)
    by reflexivity.
  rewrite Hnsfw.
  destruct (category_cases c) as [[G C]|[[G [G' C]]|[G [G' C]]]]; rewrite C, G.
  - repeat split; try congruence.
    + intros [_ L]. apply JsFacts.leb_not_gt in L. congruence.
    + intros L. apply JsFacts.leb_mid_not_gt_high in L. congruence.
  - repeat split; try congruence.
    + now apply JsFacts.not_gt_leb.
    + intros L. apply JsFacts.leb_not_gt in L. congruence.
  - repeat split; try congruence.
    + intros [L _]. congruence.
    + intros _. now apply JsFacts.not_gt_leb.
Qed.

Lemma decision_policy_thresholds_witness :
  (category (verdict 0.55%float) = nsfw <-> Js.gt 0.55%float 0.7%float = true) /\
  (category (verdict 0.55%float) = uncertain <->
     Js.gt 0.55%float 0.4%float = true /\ (0.55 <=? 0.7)%float = true) /\
  (category (verdict 0.55%float) = safe <-> (0.55 <=? 0.4)%float = true) /\
  (isNSFW (verdict 0.55%float) = true <-> Js.gt 0.55%float 0.7%float = true) /\
  (category (verdict 0.55%float) = uncertain -> isNSFW (verdict 0.55%float) = false) /\
  (category (verdict 0.55%float) = safe -> isNSFW (verdict 0.55%float) = false) /\
  category (verdict 0.7%float) = uncertain /\
  category (verdict 0.4%float) = safe.
Proof.
  apply (decision_policy_thresholds 0.55%float); vm_compute; reflexivity.
Defined.

(** ** The audit log *)

Lemma bound_to_nat : Z.of_nat (Z.to_nat AUDIT_LOG_BOUND) = AUDIT_LOG_BOUND.
Proof. reflexivity. Qed.

Lemma bound_nonneg : 0 <= AUDIT_LOG_BOUND.
Proof. discriminate. Qed.

Lemma logAudit_spec (log : AuditFields) (w : World) :
  logAudit log w =
  (Normal tt,
   set_auditLogs
     (last_n (Z.to_nat AUDIT_LOG_BOUND) (auditLogs w ++ [entry_at (clock w) log]))
     w).
Proof.
  unfold logAudit. fold (entry_at (clock w) log).
  set (pushed := (auditLogs w ++ [entry_at (clock w) log])%list).
  f_equal. f_equal.
  destruct (Z.ltb_spec AUDIT_LOG_BOUND (Z.of_nat (length pushed))) as [H|H].
  - apply js_splice0_overflow; [apply bound_nonneg | exact H].
  - symmetry. apply last_n_all. pose proof bound_to_nat. lia.
Qed.

Lemma logAudit_length (log : AuditFields) (w : World) :
  Z.of_nat (length (auditLogs (snd (logAudit log w)))) <= AUDIT_LOG_BOUND.
Proof.
  rewrite logAudit_spec. cbn [snd set_auditLogs auditLogs].
  rewrite last_n_length. pose proof bound_to_nat. lia.
Qed.

Lemma record_all_spec (es : list (Z * AuditFields)) (w : World) :
  Z.of_nat (length (auditLogs w)) <= AUDIT_LOG_BOUND ->
  auditLogs (record_all es w) =
  last_n (Z.to_nat AUDIT_LOG_BOUND) (auditLogs w ++ entries es).
Proof.
  revert w. induction es as [|[t log] es IH]; intros w Hw.
  - cbn [record_all fold_left entries map]. rewrite app_nil_r.
    symmetry. apply last_n_all. pose proof bound_to_nat. lia.
  - cbn [record_all fold_left entries map fst snd].
    fold (record_all es (snd (logAudit log (set_clock t w)))).
    rewrite IH by apply logAudit_length.
    rewrite logAudit_spec. cbn [snd set_auditLogs auditLogs set_clock clock].
    rewrite last_n_app_trim, <- app_assoc. reflexivity.
Qed.

Lemma getAuditLogs_positive (limit : Z) (w : World) :
  0 < limit ->
  getAuditLogs limit w = (Normal (rev (last_n (Z.to_nat limit) (auditLogs w))), w).
Proof.
  intros H. unfold getAuditLogs. now rewrite js_slice_negative.
Qed.

Lemma getAuditLogs_incl (limit : Z) (w : World) (x : NSFWAuditLog) :
  (exists l, fst (getAuditLogs limit w) = Normal l /\ In x l) -> In x (auditLogs w).
Proof.
  intros [l [Hl Hx]]. unfold getAuditLogs in Hl. cbn [fst] in Hl.
  injection Hl as <-. apply in_rev in Hx.
  unfold Js.slice in Hx.
  match type of Hx with
  | In _ (skipn ?n _) => rewrite <- (firstn_skipn n (auditLogs w))
  end.
  apply in_or_app. right. exact Hx.
Qed.

(** C7: a record operation never leaves more than 10,000 records and keeps
    the most recent ones (the oldest go first); after more than 10,000 record
    operations on the empty log, [getAuditLogs(10000)] returns exactly the
    10,000 most recent records, newest first, and no query returns an evicted
    record. *)
Theorem audit_log_bounded (es : list (Z * AuditFields)) (w : World) :
  auditLogs w = [] ->
  AUDIT_LOG_BOUND < Z.of_nat (length es) ->
  (forall (log : AuditFields) (w0 : World),
      Z.of_nat (length (auditLogs (snd (logAudit log w0)))) <= 10000 /\
      auditLogs (snd (logAudit log w0)) =
      last_n (Z.to_nat 10000) (auditLogs w0 ++ [entry_at (clock w0) log])) /\
  getAuditLogs 10000 (record_all es w) =
    (Normal (rev (last_n (Z.to_nat 10000) (entries es))), record_all es w) /\
  length (rev (last_n (Z.to_nat 10000) (entries es))) = Z.to_nat 10000 /\
  (forall (limit : Z) (l : list NSFWAuditLog) (x : NSFWAuditLog),
      fst (getAuditLogs limit (record_all es w)) = Normal l ->
      In x l -> In x (last_n (Z.to_nat 10000) (entries es))).
Proof.
  intros Hempty Hmany. change 10000 with AUDIT_LOG_BOUND.
  assert (Hlog : auditLogs (record_all es w)
                 = last_n (Z.to_nat AUDIT_LOG_BOUND) (entries es)).
  { rewrite record_all_spec by (rewrite Hempty; apply bound_nonneg).
    now rewrite Hempty. }
  repeat split.
  - apply logAudit_length.
  - now rewrite logAudit_spec.
  - rewrite getAuditLogs_positive by reflexivity.
    rewrite Hlog.
    rewrite (last_n_all _ (last_n _ _)) by (rewrite last_n_length; lia).
    reflexivity.
  - rewrite length_rev, last_n_length. unfold entries. rewrite length_map.
    pose proof bound_to_nat. lia.
  - intros limit l x Hl Hx. rewrite <- Hlog.
    apply (getAuditLogs_incl limit). exists l. now split.
Qed.

Lemma audit_log_bounded_witness :
  AUDIT_LOG_BOUND < Z.of_nat (length Scenario.many_records) /\
  getAuditLogs 10000 (record_all Scenario.many_records Scenario.start) =
    (Normal (rev (last_n (Z.to_nat 10000) (entries Scenario.many_records))),
     record_all Scenario.many_records Scenario.start).
Proof.
  assert (Hmany : AUDIT_LOG_BOUND < Z.of_nat (length Scenario.many_records))
    by (vm_compute; reflexivity).
  split; [exact Hmany|].
  exact (proj1 (proj2 (audit_log_bounded Scenario.many_records Scenario.start
                         eq_refl Hmany))).
Defined.

(** One more record on a full log: the record of time 0 goes, and the new
    one (time 10000) is the first a query returns. *)
Example logAudit_at_the_bound :
  let w := snd (logAudit (Scenario.blocked_fields "b.bmp") Scenario.full_log) in
  Z.of_nat (length (auditLogs w)) = 10000 /\
  option_map timestamp (hd_error (auditLogs w)) = Some 1 /\
  fst (getAuditLogs 2 w) =
  Normal [entry_at 10000 (Scenario.blocked_fields "b.bmp");
          entry_at 9999 (Scenario.allowed_fields "a.png")].
Proof. vm_compute. repeat split. Qed.

(** ** Querying the log *)

Lemma getAuditLogs_zero (w : World) :
  getAuditLogs 0 w = (Normal (rev (auditLogs w)), w).
Proof. unfold getAuditLogs. now rewrite js_slice_zero. Qed.

(** A query leaves the process state as it was. *)
Lemma getAuditLogs_pure (limit : Z) (w : World) :
  snd (getAuditLogs limit w) = w.
Proof. reflexivity. Qed.

(** C8 (the code at [limit = 0]): with two records in the log,
    [getAuditLogs(0)] returns both of them, newest first, instead of none:
    [slice(-0)] is [slice(0)], the whole array. *)
Theorem getAuditLogs_limit_zero_returns_all :
  fst (getAuditLogs 0 (record_all Scenario.two_records Scenario.start)) =
  Normal [entry_at 2 (Scenario.allowed_fields "second.png");
          entry_at 1 (Scenario.blocked_fields "first.bmp")].
Proof. vm_compute. reflexivity. Qed.

(** For a limit of at least one the query returns the [limit] most recent
    records (all of them when there are fewer), newest first, and leaves the
    log as it was. *)
Lemma getAuditLogs_most_recent (limit : Z) (w : World) :
  1 <= limit ->
  fst (getAuditLogs limit w) = Normal (rev (last_n (Z.to_nat limit) (auditLogs w))) /\
  snd (getAuditLogs limit w) = w /\
  ((length (auditLogs w) <= Z.to_nat limit)%nat ->
   fst (getAuditLogs limit w) = Normal (rev (auditLogs w))).
Proof.
  intros H. rewrite getAuditLogs_positive by lia. cbn [fst snd].
  repeat split. intros Hall. now rewrite last_n_all.
Qed.

(** ** Statistics *)

Lemma filter_length_count (p : NSFWAuditLog -> bool) (l : list NSFWAuditLog) :
  length (filter p l) = count_records p l.
Proof.
  induction l as [|r l IH]; [reflexivity|].
  cbn [filter count_records]. destruct (p r); cbn [length]; lia.
Qed.

Lemma count_records_split (p : NSFWAuditLog -> bool) (l : list NSFWAuditLog) :
  (count_records p l + count_records (fun r => negb (p r)) l = length l)%nat.
Proof.
  induction l as [|r l IH]; [reflexivity|].
  cbn [count_records length]. destruct (p r); cbn [negb]; lia.
Qed.

(** C9: [getNSFWStats] reports as total the number of records, as blocked the
    number of records with [isNSFW = true], as allowed the total minus the
    blocked (the number of records with [isNSFW = false]), and as block rate
    [blocked / total * 100], evaluated on doubles, when the total is positive
    and [0] when it is zero; it leaves the log as it was, and after
    [clearAuditLogs] it reports zeros throughout. *)
Theorem getNSFWStats_spec (w : World) :
  exists st : Stats,
    getNSFWStats w = (Normal st, w) /\
    totalChecks st = Z.of_nat (length (auditLogs w)) /\
    blockedCount st = Z.of_nat (count_records log_isNSFW (auditLogs w)) /\
    allowedCount st = totalChecks st - blockedCount st /\
    allowedCount st =
      Z.of_nat (count_records (fun r => negb (log_isNSFW r)) (auditLogs w)) /\
    (0 < totalChecks st ->
     blockRate st =
       (Js.of_Z (blockedCount st) / Js.of_Z (totalChecks st) * 100)%float) /\
    (totalChecks st = 0 -> blockRate st = 0%float) /\
    fst (getNSFWStats (snd (clearAuditLogs w))) =
      Normal {| totalChecks := 0; blockedCount := 0; allowedCount := 0;
                blockRate := 0%float |}.
Proof.
  unfold getNSFWStats. eexists. split; [reflexivity|].
  cbn [totalChecks blockedCount allowedCount blockRate].
  rewrite filter_length_count.
  pose proof (count_records_split log_isNSFW (auditLogs w)) as Hsplit.
  repeat split.
  - lia.
  - intros Hpos. apply Z.ltb_lt in Hpos. now rewrite Hpos.
  - intros Hzero. now rewrite Hzero.
Qed.

(** Three blocked records out of four give a block rate of exactly 75. *)
Example getNSFWStats_three_of_four :
  fst (getNSFWStats (record_all Scenario.three_of_four Scenario.start)) =
  Normal {| totalChecks := 4; blockedCount := 3; allowedCount := 1;
            blockRate := 75%float |}.
Proof. vm_compute. reflexivity. Qed.

(** ** Running the pipeline *)

Lemma record_calls_nil (w : World) : record_calls [] w = w.
Proof. destruct w. unfold record_calls. cbn. now rewrite app_nil_r. Qed.

Lemma record_calls_app (cs1 cs2 : list LibCall) (w : World) :
  record_calls cs2 (record_calls cs1 w) = record_calls (cs1 ++ cs2) w.
Proof. unfold record_calls. cbn. now rewrite app_assoc. Qed.

Lemma record_call_one (c : LibCall) (w : World) :
  record_call c w = record_calls [c] w.
Proof. reflexivity. Qed.

Ltac run_js :=
  cbv beta iota zeta delta
    [detectNSFW preprocessImage try_catch bind ret throw lib_call].

Section Pipeline.

Variable sharp : Sharp.
Variables (imageBuffer : Buffer) (fileName : string) (userId : option string).
Variable fileSize : option Z.

(** Preprocessing never throws, touches nothing but the record of library
    calls, and its answer is a function of the image alone. *)
Lemma preprocessImage_run :
  exists (t : option (list Js.number)) (cs : list LibCall),
    forallb is_sharp_call cs = true /\
    forall w, preprocessImage sharp imageBuffer w = (Normal t, record_calls cs w).
Proof.
  run_js.
  destruct (metadata sharp imageBuffer) as [md|e].
  2:{ exists None, [SharpMetadata]. split; reflexivity. }
  destruct (negb (Js.truthy (width md)) || negb (Js.truthy (height md))).
  { exists None, [SharpMetadata]. split; reflexivity. }
  destruct (exceeds (width md) MAX_IMAGE_DIMENSION
            || exceeds (height md) MAX_IMAGE_DIMENSION).
  { exists None, [SharpMetadata]. split; reflexivity. }
  destruct (resize_png sharp imageBuffer) as [resized|e].
  2:{ exists None, [SharpMetadata; SharpResize]. split; [reflexivity|].
      intros w. now rewrite !record_call_one, !record_calls_app. }
  destruct (raw_pixels sharp resized) as [pixels|e].
  - exists (Some (fill_tensor pixels)), [SharpMetadata; SharpResize; SharpRaw].
    split; [reflexivity|].
    intros w. now rewrite !record_call_one, !record_calls_app.
  - exists None, [SharpMetadata; SharpResize; SharpRaw].
    split; [reflexivity|].
    intros w. now rewrite !record_call_one, !record_calls_app.
Qed.

Lemma detectNSFW_oversize (w : World) :
  oversize fileSize = true ->
  detectNSFW sharp imageBuffer fileName userId fileSize w =
  (Normal (fail_closed "File size exceeds limit"),
   snd (logAudit (failure_fields fileName userId fileSize None
                    "File size exceeds limit") w)).
Proof.
  intros H. unfold oversize in H. run_js. rewrite H. reflexivity.
Qed.

Lemma detectNSFW_metadata_throws (w : World) (e : Js.Error) :
  oversize fileSize = false ->
  metadata sharp imageBuffer = Throw e ->
  detectNSFW sharp imageBuffer fileName userId fileSize w =
  (Normal (fail_closed (Js.String_of_error e)),
   snd (logAudit (failure_fields fileName userId fileSize None
                    (Js.String_of_error e))
          (record_calls [SharpMetadata] w))).
Proof.
  intros H Hmd. unfold oversize in H. run_js. rewrite H, Hmd. reflexivity.
Qed.

Lemma detectNSFW_format_rejected (w : World) (md : Metadata) :
  oversize fileSize = false ->
  metadata sharp imageBuffer = Normal md ->
  format_rejected md = true ->
  detectNSFW sharp imageBuffer fileName userId fileSize w =
  (Normal (fail_closed "Invalid image format"),
   snd (logAudit (failure_fields fileName userId fileSize (dimensions_of md)
                    "Invalid image format")
          (record_calls [SharpMetadata] w))).
Proof.
  intros H Hmd Hfmt. unfold oversize in H. unfold format_rejected in Hfmt.
  run_js. rewrite H, Hmd, Hfmt. reflexivity.
Qed.

Lemma detectNSFW_preprocess_failed (w w1 : World) (md : Metadata) :
  oversize fileSize = false ->
  metadata sharp imageBuffer = Normal md ->
  format_rejected md = false ->
  preprocessImage sharp imageBuffer (record_calls [SharpMetadata] w) = (Normal None, w1) ->
  detectNSFW sharp imageBuffer fileName userId fileSize w =
  (Normal (fail_closed "Error: Image preprocessing failed"),
   snd (logAudit (failure_fields fileName userId fileSize None
                    "Error: Image preprocessing failed") w1)).
Proof.
  intros H Hmd Hfmt Hpre. unfold oversize in H. unfold format_rejected in Hfmt.
  cbv beta iota zeta delta [detectNSFW try_catch bind ret throw lib_call].
  rewrite H, Hmd, Hfmt. rewrite record_call_one, Hpre. reflexivity.
Qed.

Lemma detectNSFW_classified (w w1 : World) (md : Metadata) (t : list Js.number) :
  oversize fileSize = false ->
  metadata sharp imageBuffer = Normal md ->
  format_rejected md = false ->
  preprocessImage sharp imageBuffer (record_calls [SharpMetadata] w) = (Normal (Some t), w1) ->
  detectNSFW sharp imageBuffer fileName userId fileSize w =
  (Normal (verdict 0.15%float),
   snd (logAudit (success_fields fileName userId fileSize md) w1)).
Proof.
  intros H Hmd Hfmt Hpre. unfold oversize in H. unfold format_rejected in Hfmt.
  cbv beta iota zeta delta [detectNSFW try_catch bind ret throw lib_call].
  rewrite H, Hmd, Hfmt. rewrite record_call_one, Hpre. reflexivity.
Qed.

End Pipeline.

(** ** The verdict of a call *)

Lemma String_of_error_nonempty (e : Js.Error) : Js.String_of_error e <> "".
Proof.
  unfold Js.String_of_error. destruct (Js.message e); discriminate.
Qed.

(** The mocked confidence yields the constant safe verdict. *)
Lemma verdict_mock :
  verdict 0.15%float =
  {| isNSFW := false; confidence := 0.15%float; category := safe; error := None |}.
Proof. vm_compute. reflexivity. Qed.

Section Verdict.

Variable sharp : Sharp.
Variables (imageBuffer : Buffer) (fileName : string) (userId : option string).
Variable fileSize : option Z.

(** Every call returns a result and logs one record that carries the same
    verdict, after calls to the image library only; the result is the
    fail-closed one when a stage failed and the mocked one otherwise. *)
Lemma detectNSFW_cases (w : World) :
  exists (r : NSFWDetectionResult) (log : AuditFields) (cs : list LibCall),
    detectNSFW sharp imageBuffer fileName userId fileSize w =
      (Normal r, snd (logAudit log (record_calls cs w))) /\
    forallb is_sharp_call cs = true /\
    (f_isNSFW log = isNSFW r /\ f_confidence log = confidence r /\
     f_error log = error r /\ f_fileName log = fileName /\
     f_userId log = userId /\ f_fileSize log = Js.or_zero fileSize) /\
    ((exists msg, r = fail_closed msg /\ msg <> "" /\
                  pipeline_failed sharp imageBuffer fileSize) \/
     (r = verdict 0.15%float /\ ~ pipeline_failed sharp imageBuffer fileSize)).
Proof.
  destruct (oversize fileSize) eqn:Hsize.
  { eexists _, _, []. rewrite record_calls_nil.
    split; [eapply detectNSFW_oversize; eassumption|].
    repeat split. left. eexists. repeat split; [discriminate|].
    now apply failed_oversize. }
  destruct (metadata sharp imageBuffer) as [md|e] eqn:Hmd.
  2:{ eexists _, _, [SharpMetadata].
      split; [eapply detectNSFW_metadata_throws; eassumption|].
      repeat split. left. eexists. repeat split.
      - apply String_of_error_nonempty.
      - now apply (failed_metadata _ _ _ e). }
  destruct (format_rejected md) eqn:Hfmt.
  { eexists _, _, [SharpMetadata].
    split; [eapply detectNSFW_format_rejected; eassumption|].
    repeat split. left. eexists. repeat split; [discriminate|].
    now apply (failed_format _ _ _ md). }
  destruct (preprocessImage_run sharp imageBuffer) as (t & cs & Hcs & Hpre).
  destruct t as [t|].
  - eexists _, _, (SharpMetadata :: cs).
    split.
    + rewrite (detectNSFW_classified sharp imageBuffer fileName userId fileSize
                 w (record_calls (SharpMetadata :: cs) w) md t Hsize Hmd Hfmt).
      * reflexivity.
      * rewrite Hpre, record_calls_app. reflexivity.
    + split; [exact Hcs|]. split; [repeat split|].
      right. split; [reflexivity|].
      intros [Hover|e He|md' Hmd' Hfmt'|w' Hw'].
      * congruence.
      * congruence.
      * congruence.
      * rewrite Hpre in Hw'. discriminate.
  - eexists _, _, (SharpMetadata :: cs).
    split.
    + rewrite (detectNSFW_preprocess_failed sharp imageBuffer fileName userId
                 fileSize w (record_calls (SharpMetadata :: cs) w) md Hsize Hmd Hfmt).
      * reflexivity.
      * rewrite Hpre, record_calls_app. reflexivity.
    + split; [exact Hcs|]. split; [repeat split|].
      left. eexists. repeat split; [discriminate|].
      apply (failed_preprocessing _ _ _ w). now rewrite Hpre.
Qed.

End Verdict.

Section Claims.

Variable sharp : Sharp.
Variables (imageBuffer : Buffer) (fileName : string) (userId : option string).

Lemma logAudit_keeps_model (log : AuditFields) (w : World) :
  modelSession (snd (logAudit log w)) = modelSession w /\
  modelLoadPromise (snd (logAudit log w)) = modelLoadPromise w /\
  disk (snd (logAudit log w)) = disk w /\
  calls (snd (logAudit log w)) = calls w /\
  clock (snd (logAudit log w)) = clock w.
Proof. repeat split. Qed.

Lemma oversize_above_cap (size : Z) :
  50 * 1024 * 1024 < size -> oversize (Some size) = true.
Proof.
  intros H. unfold oversize, Js.truthy, exceeds.
  change (MAX_IMAGE_SIZE_MB * 1024 * 1024) with (50 * 1024 * 1024).
  apply andb_true_intro. split.
  - apply negb_true_iff, Z.eqb_neq. lia.
  - apply Z.ltb_lt. exact H.
Qed.

Lemma oversize_within_cap (fileSize : option Z) :
  (forall size, fileSize = Some size -> size <= 50 * 1024 * 1024) ->
  oversize fileSize = false.
Proof.
  intros H. unfold oversize, exceeds. destruct fileSize as [size|]; [|reflexivity].
  change (MAX_IMAGE_SIZE_MB * 1024 * 1024) with (50 * 1024 * 1024).
  specialize (H size eq_refl).
  apply andb_false_intro2, Z.ltb_ge. exact H.
Qed.

Lemma format_allowed (md : Metadata) (f : string) :
  format md = Some f -> In f ["jpeg"; "png"; "webp"; "gif"] ->
  format_rejected md = false.
Proof.
  intros Hf Hin. unfold format_rejected. rewrite Hf.
  cbn in Hin. destruct Hin as [<-|[<-|[<-|[<-|[]]]]]; reflexivity.
Qed.

(** C1: whenever a stage of the pipeline fails (declared size over the cap,
    metadata that cannot be read or any other thrown error, a format that is
    not allowed, a failed preprocessing), the result is [isNSFW = true],
    [confidence = 1.0], [category = nsfw] with a non-empty [error]; a result
    whose [error] is set has [isNSFW = true]; and a result that does not
    block comes from a call none of whose stages failed. *)
Theorem detectNSFW_fails_closed (fileSize : option Z) (w : World) :
  exists (r : NSFWDetectionResult) (w' : World),
    detectNSFW sharp imageBuffer fileName userId fileSize w = (Normal r, w') /\
    (pipeline_failed sharp imageBuffer fileSize ->
     isNSFW r = true /\ confidence r = 1.0%float /\ category r = nsfw /\
     exists msg, error r = Some msg /\ msg <> "") /\
    (error r <> None -> isNSFW r = true) /\
    (isNSFW r = false -> ~ pipeline_failed sharp imageBuffer fileSize).
Proof.
  destruct (detectNSFW_cases sharp imageBuffer fileName userId fileSize w)
    as (r & log & cs & Hrun & _ & _ & [(msg & -> & Hmsg & Hfail)|[-> Hok]]).
  - eexists _, _. split; [exact Hrun|]. repeat split.
    + exists msg. now split.
    + discriminate.
  - eexists _, _. split; [exact Hrun|]. rewrite verdict_mock. repeat split.
    + contradiction.
    + contradiction.
    + contradiction.
    + contradiction.
    + intros H. now contradiction H.
    + intros _. exact Hok.
Qed.

(** C3: a call never throws: it returns one result, and the log after the
    call is the log before it with exactly one record appended (and trimmed
    to the bound), a record that carries the verdict returned. *)
Theorem detectNSFW_returns_and_logs_once (fileSize : option Z) (w : World) :
  exists (r : NSFWDetectionResult) (w' : World) (auditEntry : NSFWAuditLog),
    detectNSFW sharp imageBuffer fileName userId fileSize w = (Normal r, w') /\
    auditLogs w' = last_n (Z.to_nat 10000) (auditLogs w ++ [auditEntry]) /\
    (Z.of_nat (length (auditLogs w)) < 10000 ->
     auditLogs w' = (auditLogs w ++ [auditEntry])%list) /\
    timestamp auditEntry = clock w /\
    log_fileName auditEntry = fileName /\
    log_userId auditEntry = userId /\
    log_isNSFW auditEntry = isNSFW r /\
    log_confidence auditEntry = confidence r /\
    log_error auditEntry = error r.
Proof.
  destruct (detectNSFW_cases sharp imageBuffer fileName userId fileSize w)
    as (r & log & cs & Hrun & _ & (H1 & H2 & H3 & H4 & H5 & _) & _).
  exists r, (snd (logAudit log (record_calls cs w))), (entry_at (clock w) log).
  split; [exact Hrun|].
  rewrite logAudit_spec. cbn [snd set_auditLogs auditLogs record_calls clock].
  repeat split; try assumption.
  intros Hroom. apply last_n_all. rewrite length_app. cbn [length].
  change 10000 with AUDIT_LOG_BOUND in Hroom. pose proof bound_to_nat. lia.
Qed.

(** C5: a declared size above 50 MB is rejected with the fail-closed
    verdict and an error, before any call into the image library, and the
    rejection is recorded in the log. *)
Theorem oversize_rejected_before_decoding (size : Z) (w : World) :
  50 * 1024 * 1024 < size ->
  exists w' : World,
    detectNSFW sharp imageBuffer fileName userId (Some size) w =
      (Normal {| isNSFW := true; confidence := 1.0%float; category := nsfw;
                 error := Some "File size exceeds limit" |}, w') /\
    calls w' = calls w /\
    auditLogs w' =
      last_n (Z.to_nat 10000)
        (auditLogs w ++
         [{| timestamp := clock w; log_userId := userId;
             log_fileName := fileName; log_isNSFW := true;
             log_confidence := 1.0%float; log_fileSize := size;
             log_dimensions := None;
             log_error := Some "File size exceeds limit" |}]).
Proof.
  intros Hsize. apply oversize_above_cap in Hsize.
  eexists. split.
  - apply (detectNSFW_oversize sharp imageBuffer fileName userId (Some size) w Hsize).
  - rewrite logAudit_spec. split; reflexivity.
Qed.

End Claims.

Section Preprocessing.

Variable sharp : Sharp.
Variables (imageBuffer : Buffer) (fileName : string) (userId : option string).
Variable fileSize : option Z.
Variable md : Metadata.

Hypothesis size_within_cap :
  forall size, fileSize = Some size -> size <= 50 * 1024 * 1024.
Hypothesis metadata_read : metadata sharp imageBuffer = Normal md.
Hypothesis format_in_allow_list :
  exists f, format md = Some f /\ In f ["jpeg"; "png"; "webp"; "gif"].

Lemma accepted_not_oversize : oversize fileSize = false.
Proof. now apply oversize_within_cap. Qed.

Lemma accepted_format : format_rejected md = false.
Proof. destruct format_in_allow_list as (f & Hf & Hin). now apply (format_allowed md f). Qed.

Lemma preprocessImage_too_large (w : World) :
  (exists px, width md = Some px /\ 4096 < px) \/
  (exists px, height md = Some px /\ 4096 < px) ->
  preprocessImage sharp imageBuffer w = (Normal None, record_calls [SharpMetadata] w).
Proof.
  intros Hlarge. run_js. rewrite metadata_read.
  destruct (negb (Js.truthy (width md)) || negb (Js.truthy (height md)));
    [reflexivity|].
  assert (Hex : exceeds (width md) MAX_IMAGE_DIMENSION
                || exceeds (height md) MAX_IMAGE_DIMENSION = true).
  { apply orb_true_iff.
    destruct Hlarge as [(px & Hpx & Hgt)|(px & Hpx & Hgt)]; [left|right];
      rewrite Hpx; unfold exceeds; apply Z.ltb_lt; exact Hgt. }
  rewrite Hex. reflexivity.
Qed.

(** C6: for an input that passes the size and format checks, a decoded width
    or height above 4096 makes [preprocessImage] return [null], and
    [detectNSFW] then returns the fail-closed verdict with an error. *)
Theorem oversized_dimensions_fail_closed (w : World) :
  (exists px, width md = Some px /\ 4096 < px) \/
  (exists px, height md = Some px /\ 4096 < px) ->
  (forall w0, fst (preprocessImage sharp imageBuffer w0) = Normal None) /\
  exists w' : World,
    detectNSFW sharp imageBuffer fileName userId fileSize w =
      (Normal {| isNSFW := true; confidence := 1.0%float; category := nsfw;
                 error := Some "Error: Image preprocessing failed" |}, w').
Proof.
  intros Hlarge. split.
  - intros w0. now rewrite preprocessImage_too_large.
  - eexists.
    eapply (detectNSFW_preprocess_failed sharp imageBuffer fileName userId fileSize w).
    + apply accepted_not_oversize.
    + apply metadata_read.
    + apply accepted_format.
    + now apply preprocessImage_too_large.
Qed.

(** The branch the code writes for an accepted image (lines 228-271): were
    [preprocessImage] to yield a tensor, the call would return the constant
    verdict [confidence = 0.15], [category = safe], [isNSFW = false] without
    an error, leave the model state and the file system as they were and call
    nothing but the image library.  With a library that rejects the raw
    decoding call, [preprocessImage] yields no tensor and this branch is not
    taken. *)
Lemma accepted_image_gets_mock_verdict (tensor : list Js.number) (w : World) :
  fst (preprocessImage sharp imageBuffer w) = Normal (Some tensor) ->
  exists w' : World,
    detectNSFW sharp imageBuffer fileName userId fileSize w =
      (Normal {| isNSFW := false; confidence := 0.15%float; category := safe;
                 error := None |}, w') /\
    modelSession w' = modelSession w /\
    modelLoadPromise w' = modelLoadPromise w /\
    disk w' = disk w /\
    exists cs : list LibCall,
      calls w' = (calls w ++ cs)%list /\ forallb is_sharp_call cs = true.
Proof.
  intros Hpre.
  destruct (preprocessImage_run sharp imageBuffer) as (t & cs & Hcs & Hrun).
  rewrite Hrun in Hpre. cbn [fst] in Hpre. injection Hpre as ->.
  eexists. split.
  - rewrite <- verdict_mock.
    eapply (detectNSFW_classified sharp imageBuffer fileName userId fileSize w).
    + apply accepted_not_oversize.
    + apply metadata_read.
    + apply accepted_format.
    + apply Hrun.
  - repeat split. exists (SharpMetadata :: cs). split; [|exact Hcs].
    cbn [snd logAudit set_auditLogs calls record_calls].
    now rewrite <- app_assoc.
Qed.

End Preprocessing.

(** ** Model initialisation *)

Lemma initializeModel_poisoned (e : Js.Error) (w : World) :
  poisoned e w -> initializeModel w = (Throw e, w).
Proof.
  intros [Hs Hp]. unfold initializeModel. rewrite Hs, Hp. reflexivity.
Qed.

Lemma detectNSFW_keeps_model (sharp : Sharp) (imageBuffer : Buffer)
    (fileName : string) (userId : option string) (fileSize : option Z) (w : World) :
  modelSession (snd (detectNSFW sharp imageBuffer fileName userId fileSize w))
    = modelSession w /\
  modelLoadPromise (snd (detectNSFW sharp imageBuffer fileName userId fileSize w))
    = modelLoadPromise w.
Proof.
  destruct (detectNSFW_cases sharp imageBuffer fileName userId fileSize w)
    as (r & log & cs & Hrun & _).
  rewrite Hrun. split; reflexivity.
Qed.

Lemma step_poisoned (e : Js.Error) (s : Step) (w : World) :
  poisoned e w -> poisoned e (step w s).
Proof.
  intros Hw. destruct s; cbn [step].
  - destruct Hw as [Hs Hp].
    destruct (detectNSFW_keeps_model sharp imageBuffer fileName userId fileSize w)
      as [Hs' Hp'].
    split; congruence.
  - exact Hw.
  - exact Hw.
  - exact Hw.
  - now rewrite initializeModel_poisoned with (e := e).
  - exact Hw.
Qed.

Lemma steps_poisoned (e : Js.Error) (l : list Step) (w : World) :
  poisoned e w -> poisoned e (steps l w).
Proof.
  revert w. induction l as [|s l IH]; intros w Hw; [exact Hw|].
  apply IH. now apply step_poisoned.
Qed.

(** The first call settles the load promise with the outcome of the load. *)
Lemma initializeModel_first_failure (e : Js.Error) (w w0 : World) :
  modelSession w = None ->
  modelLoadPromise w = None ->
  loadModel w = (Throw e, w0) ->
  initializeModel w = (Throw e, set_modelLoadPromise (Some (Rejected e)) w0) /\
  modelSession w0 = None.
Proof.
  intros Hs Hp Hload. unfold initializeModel. rewrite Hs, Hp, Hload.
  split; [reflexivity|].
  revert Hload. unfold loadModel, downloadModel, try_catch, bind, ret, throw,
    existsSync, mkdirSync.
  destruct (negb (dir_exists (disk w))); cbn.
  - destruct (mkdir_failure (disk w)); cbn.
    + intros [= _ <-]. exact Hs.
    + destruct (model_exists (disk w)); discriminate.
  - destruct (model_exists (disk w)); discriminate.
Qed.

(** C4, as the code has it: a failed initialisation is reported to the
    caller, the rejected load promise stays in [modelLoadPromise], and from
    then on, whatever else the process does and however the file system
    changes, every call to [initializeModel] reports that same failure and
    leaves the state untouched: no new attempt is made. *)
Theorem initializeModel_failure_is_cached (e : Js.Error) (w w0 : World) :
  modelSession w = None ->
  modelLoadPromise w = None ->
  loadModel w = (Throw e, w0) ->
  exists w1 : World,
    initializeModel w = (Throw e, w1) /\
    modelLoadPromise w1 = Some (Rejected e) /\
    forall later : list Step,
      initializeModel (steps later w1) = (Throw e, steps later w1).
Proof.
  intros Hs Hp Hload.
  destruct (initializeModel_first_failure e w w0 Hs Hp Hload) as [Hrun Hs0].
  eexists. split; [exact Hrun|]. split; [reflexivity|].
  intros later. apply initializeModel_poisoned, steps_poisoned.
  split; [exact Hs0 | reflexivity].
Qed.

Lemma initializeModel_failure_is_cached_witness :
  exists w1 : World,
    initializeModel Scenario.start_read_only = (Throw Scenario.permission_denied, w1) /\
    modelLoadPromise w1 = Some (Rejected Scenario.permission_denied) /\
    forall later : list Step,
      initializeModel (steps later w1) =
      (Throw Scenario.permission_denied, steps later w1).
Proof.
  apply (initializeModel_failure_is_cached Scenario.permission_denied
           Scenario.start_read_only
           (record_calls [FsExistsSync CacheDir; FsMkdirSync CacheDir]
              Scenario.start_read_only));
    reflexivity.
Defined.

(** C4, as stated, fails: after the first call failed on a read-only disk,
    the next call on a repaired disk reports the old failure, whereas a call
    from the uninitialised state succeeds there. *)
Lemma initializeModel_does_not_retry : ~ retries_after_failure.
Proof.
  intros Hretry.
  specialize (Hretry Scenario.start_read_only _ Scenario.permission_denied
                eq_refl eq_refl eq_refl Scenario.repaired_disk).
  vm_compute in Hretry. discriminate Hretry.
Qed.

(** ** The properties on concrete calls *)

Lemma detectNSFW_fails_closed_witness :
  exists (r : NSFWDetectionResult) (w' : World),
    detectNSFW Scenario.sharp_unreadable Scenario.upload "cat.png" None None
      Scenario.start = (Normal r, w') /\
    isNSFW r = true /\ confidence r = 1.0%float /\ category r = nsfw /\
    exists msg, error r = Some msg /\ msg <> "".
Proof.
  destruct (detectNSFW_fails_closed Scenario.sharp_unreadable Scenario.upload
              "cat.png" None None Scenario.start)
    as (r & w' & Hrun & Hfail & _).
  exists r, w'. split; [exact Hrun|]. apply Hfail.
  apply (failed_metadata _ _ _
           (Js.mkError "Input buffer contains unsupported image format")).
  reflexivity.
Defined.

Lemma detectNSFW_returns_and_logs_once_witness :
  exists (r : NSFWDetectionResult) (w' : World) (auditEntry : NSFWAuditLog),
    detectNSFW Scenario.sharp_png Scenario.upload "cat.png" (Some "u1") (Some 2048)
      Scenario.start = (Normal r, w') /\
    auditLogs w' = [auditEntry] /\
    log_isNSFW auditEntry = isNSFW r /\
    log_error auditEntry = error r.
Proof.
  destruct (detectNSFW_returns_and_logs_once Scenario.sharp_png Scenario.upload
              "cat.png" (Some "u1") (Some 2048) Scenario.start)
    as (r & w' & auditEntry & Hrun & _ & Hroom & _ & _ & _ & Hv & _ & He).
  exists r, w', auditEntry. split; [exact Hrun|].
  split; [|split; assumption].
  apply Hroom. reflexivity.
Defined.

Lemma oversize_rejected_before_decoding_witness :
  exists w' : World,
    detectNSFW Scenario.sharp_png Scenario.upload "big.png" None (Some 52428801)
      Scenario.start =
      (Normal {| isNSFW := true; confidence := 1.0%float; category := nsfw;
                 error := Some "File size exceeds limit" |}, w') /\
    calls w' = calls Scenario.start /\
    auditLogs w' =
      last_n (Z.to_nat 10000)
        (auditLogs Scenario.start ++
         [{| timestamp := clock Scenario.start; log_userId := None;
             log_fileName := "big.png"; log_isNSFW := true;
             log_confidence := 1.0%float; log_fileSize := 52428801;
             log_dimensions := None;
             log_error := Some "File size exceeds limit" |}]).
Proof.
  apply (oversize_rejected_before_decoding Scenario.sharp_png Scenario.upload
           "big.png" None 52428801 Scenario.start).
  reflexivity.
Defined.

Lemma oversized_dimensions_fail_closed_witness :
  (forall w0, fst (preprocessImage Scenario.sharp_wide Scenario.upload w0) = Normal None) /\
  exists w' : World,
    detectNSFW Scenario.sharp_wide Scenario.upload "wide.jpg" None (Some 2048)
      Scenario.start =
      (Normal {| isNSFW := true; confidence := 1.0%float; category := nsfw;
                 error := Some "Error: Image preprocessing failed" |}, w').
Proof.
  apply (oversized_dimensions_fail_closed Scenario.sharp_wide Scenario.upload
           "wide.jpg" None (Some 2048)
           {| format := Some "jpeg"; width := Some 5000; height := Some 100 |}).
  - intros size [= <-]. lia.
  - reflexivity.
  - exists "jpeg". split; [reflexivity|]. left. reflexivity.
  - left. exists 5000. split; [reflexivity|lia].
Defined.

Lemma getNSFWStats_spec_witness :
  exists st : Stats,
    getNSFWStats (record_all Scenario.three_of_four Scenario.start) =
      (Normal st, record_all Scenario.three_of_four Scenario.start) /\
    totalChecks st = 4 /\ blockedCount st = 3 /\ allowedCount st = 1 /\
    blockRate st = 75%float.
Proof.
  destruct (getNSFWStats_spec (record_all Scenario.three_of_four Scenario.start))
    as (st & Hrun & Ht & Hb & Ha & _ & Hrate & _).
  assert (Ht' : totalChecks st = 4) by (rewrite Ht; vm_compute; reflexivity).
  assert (Hb' : blockedCount st = 3) by (rewrite Hb; vm_compute; reflexivity).
  exists st. split; [exact Hrun|]. split; [exact Ht'|]. split; [exact Hb'|].
  split; [rewrite Ha, Ht', Hb'; reflexivity|].
  rewrite Hrate by (rewrite Ht'; reflexivity).
  rewrite Ht', Hb'. vm_compute. reflexivity.
Defined.


(** A call on bytes that are no image, run: the verdict, the record logged
    and the library calls made. *)
Example detectNSFW_unreadable_run :
  detectNSFW Scenario.sharp_unreadable Scenario.upload "cat.png" None None
    Scenario.start =
  (Normal {| isNSFW := true; confidence := 1.0%float; category := nsfw;
             error := Some "Error: Input buffer contains unsupported image format" |},
   {| auditLogs :=
        [{| timestamp := 0; log_userId := None; log_fileName := "cat.png";
            log_isNSFW := true; log_confidence := 1.0%float;
            log_fileSize := 0; log_dimensions := None;
            log_error :=
              Some "Error: Input buffer contains unsupported image format" |}];
      modelSession := None;
      modelLoadPromise := None;
      disk := disk Scenario.start;
      clock := 0;
      calls := [SharpMetadata] |}).
Proof. vm_compute. reflexivity. Qed.

(** ** The tensor *)

Lemma fill_tensor_length (pixels : Buffer) :
  length (fill_tensor pixels) = TENSOR_LENGTH.
Proof.
  unfold fill_tensor. generalize TENSOR_LENGTH as n. intros n.
  rewrite length_app, repeat_length, length_map, length_firstn. lia.
Qed.

(** The samples 0, 127 and 255 map to -1, the binary32 value nearest to
    [127 / 127.5 - 1], and 1; the rest of the tensor stays 0. *)
Example fill_tensor_samples :
  firstn 4 (fill_tensor [Byte.x00; Byte.x7f; Byte.xff]) =
  [(-1)%float; (-0.0039215688593685627)%float; 1%float; 0%float].
Proof. vm_compute. reflexivity. Qed.

(** * Further properties of the module *)

(** ** Preprocessing *)

(** [preprocessImage], path by path. *)
Lemma preprocessImage_eval (sharp : Sharp) (imageBuffer : Buffer) (w : World) :
  preprocessImage sharp imageBuffer w =
  match metadata sharp imageBuffer with
  | Throw _ => (Normal None, record_calls [SharpMetadata] w)
  | Normal md =>
      if negb (Js.truthy (width md)) || negb (Js.truthy (height md))
      then (Normal None, record_calls [SharpMetadata] w)
      else if exceeds (width md) MAX_IMAGE_DIMENSION
              || exceeds (height md) MAX_IMAGE_DIMENSION
      then (Normal None, record_calls [SharpMetadata] w)
      else
        match resize_png sharp imageBuffer with
        | Throw _ => (Normal None, record_calls [SharpMetadata; SharpResize] w)
        | Normal resized =>
            match raw_pixels sharp resized with
            | Throw _ =>
                (Normal None,
                 record_calls [SharpMetadata; SharpResize; SharpRaw] w)
            | Normal pixels =>
                (Normal (Some (fill_tensor pixels)),
                 record_calls [SharpMetadata; SharpResize; SharpRaw] w)
            end
        end
  end.
Proof.
  run_js.
  destruct (metadata sharp imageBuffer) as [md|e]; [|reflexivity].
  destruct (negb (Js.truthy (width md)) || negb (Js.truthy (height md)));
    [reflexivity|].
  destruct (exceeds (width md) MAX_IMAGE_DIMENSION
            || exceeds (height md) MAX_IMAGE_DIMENSION); [reflexivity|].
  destruct (resize_png sharp imageBuffer) as [resized|e].
  2:{ now rewrite !record_call_one, !record_calls_app. }
  destruct (raw_pixels sharp resized) as [pixels|e];
    now rewrite !record_call_one, !record_calls_app.
Qed.

(** X1: [preprocessImage] never throws, whatever the image library does: it
    returns a tensor or [null], leaves the audit log, the model state, the
    file system and the clock as they were, and makes between one and three
    calls, all of them into the image library. *)
Theorem preprocessImage_never_throws (sharp : Sharp) (imageBuffer : Buffer)
    (w : World) :
  exists (t : option (list Js.number)) (w' : World) (cs : list LibCall),
    preprocessImage sharp imageBuffer w = (Normal t, w') /\
    auditLogs w' = auditLogs w /\
    modelSession w' = modelSession w /\
    modelLoadPromise w' = modelLoadPromise w /\
    disk w' = disk w /\
    clock w' = clock w /\
    calls w' = (calls w ++ cs)%list /\
    forallb is_sharp_call cs = true /\
    (1 <= length cs <= 3)%nat.
Proof.
  rewrite preprocessImage_eval.
  destruct (metadata sharp imageBuffer) as [md|e].
  2:{ eexists _, _, _. repeat split; cbn; lia. }
  destruct (negb (Js.truthy (width md)) || negb (Js.truthy (height md))).
  { eexists _, _, _. repeat split; cbn; lia. }
  destruct (exceeds (width md) MAX_IMAGE_DIMENSION
            || exceeds (height md) MAX_IMAGE_DIMENSION).
  { eexists _, _, _. repeat split; cbn; lia. }
  destruct (resize_png sharp imageBuffer) as [resized|e].
  2:{ eexists _, _, _. repeat split; cbn; lia. }
  destruct (raw_pixels sharp resized) as [pixels|e];
    eexists _, _, _; repeat split; cbn [length]; lia.
Qed.

(** X2: [preprocessImage] returns a tensor exactly when the metadata can be
    read, both dimensions are present, non-zero and at most 4096, and the
    resize and the raw decoding both succeed; the tensor is then the
    normalisation of the raw pixels. *)
Theorem preprocessImage_tensor_iff (sharp : Sharp) (imageBuffer : Buffer)
    (w : World) (t : list Js.number) :
  fst (preprocessImage sharp imageBuffer w) = Normal (Some t) <->
  exists (px_w px_h : Z) (f : option string) (resized pixels : Buffer),
    metadata sharp imageBuffer =
      Normal {| format := f; width := Some px_w; height := Some px_h |} /\
    px_w <> 0 /\ px_h <> 0 /\ px_w <= 4096 /\ px_h <= 4096 /\
    resize_png sharp imageBuffer = Normal resized /\
    raw_pixels sharp resized = Normal pixels /\
    t = fill_tensor pixels.
Proof.
  rewrite preprocessImage_eval. split.
  - destruct (metadata sharp imageBuffer) as [[f [px_w|] [px_h|]]|e];
      cbn [width height Js.truthy negb orb fst];
      rewrite ?orb_true_r; try discriminate.
    destruct (Z.eqb_spec px_w 0) as [|Hw]; cbn [negb orb fst]; [discriminate|].
    destruct (Z.eqb_spec px_h 0) as [|Hh]; cbn [negb orb fst]; [discriminate|].
    unfold exceeds, MAX_IMAGE_DIMENSION.
    destruct (Z.ltb_spec 4096 px_w) as [|Hw']; cbn [orb fst]; [discriminate|].
    destruct (Z.ltb_spec 4096 px_h) as [|Hh']; cbn [orb fst]; [discriminate|].
    destruct (resize_png sharp imageBuffer) as [resized|e]; [|discriminate].
    destruct (raw_pixels sharp resized) as [pixels|e] eqn:Hraw; [|discriminate].
    cbn [fst]. intros [= <-].
    exists px_w, px_h, f, resized, pixels. repeat split; assumption.
  - intros (px_w & px_h & f & resized & pixels
            & -> & Hw & Hh & Hw' & Hh' & -> & -> & ->).
    cbn [width height Js.truthy].
    apply Z.eqb_neq in Hw, Hh. rewrite Hw, Hh. cbn [negb orb].
    unfold exceeds, MAX_IMAGE_DIMENSION.
    apply Z.ltb_ge in Hw', Hh'. rewrite Hw', Hh'. reflexivity.
Qed.

Lemma preprocessImage_tensor_iff_witness :
  ~ exists t : list Js.number,
      fst (preprocessImage Scenario.sharp_png Scenario.upload Scenario.start)
      = Normal (Some t).
Proof.
  intros [t H].
  apply (preprocessImage_tensor_iff Scenario.sharp_png Scenario.upload
           Scenario.start t) in H.
  destruct H as (px_w & px_h & f & resized & pixels & _ & _ & _ & _ & _ & _ & Hraw & _).
  discriminate Hraw.
Defined.

(** ** The normalisation loop *)

(** Every byte value normalises, after rounding to binary32, to a number in
    [-1, 1]. *)
Lemma sample_in_unit_range (p : Byte.byte) :
  in_unit_range (fround (normalize_sample p)) = true.
Proof. destruct p; vm_compute; reflexivity. Qed.

Lemma forallb_repeat_true (A : Type) (f : A -> bool) (x : A) (n : nat) :
  f x = true -> forallb f (repeat x n) = true.
Proof.
  intros H. induction n as [|n IH]; [reflexivity|].
  cbn [repeat forallb]. now rewrite H, IH.
Qed.

Lemma fill_tensor_in_unit_range (pixels : Buffer) :
  forallb in_unit_range (fill_tensor pixels) = true.
Proof.
  unfold fill_tensor. rewrite forallb_app. apply andb_true_intro. split.
  - apply forallb_forall. intros x Hx. apply in_map_iff in Hx.
    destruct Hx as (p & <- & _). apply sample_in_unit_range.
  - apply forallb_repeat_true. vm_compute. reflexivity.
Qed.



(** X4: every entry of the tensor the normalisation loop fills lies in
    [-1, 1], whatever the raw pixels are; the byte 0 is mapped to exactly -1
    and the byte 255 to exactly 1. *)
Theorem fill_tensor_range (pixels : Buffer) :
  forallb in_unit_range (fill_tensor pixels) = true /\
  fround (normalize_sample Byte.x00) = (-1)%float /\
  fround (normalize_sample Byte.xff) = 1%float.
Proof.
  split; [apply fill_tensor_in_unit_range|].
  split; vm_compute; reflexivity.
Qed.

(** ** Downloading and initialising the model *)

Lemma loadModel_keeps (w : World) :
  auditLogs (snd (loadModel w)) = auditLogs w /\
  modelSession (snd (loadModel w)) = modelSession w /\
  modelLoadPromise (snd (loadModel w)) = modelLoadPromise w /\
  clock (snd (loadModel w)) = clock w.
Proof.
  unfold loadModel, downloadModel, try_catch, bind, ret, throw, existsSync,
    mkdirSync.
  destruct (dir_exists (disk w)); cbn.
  - destruct (model_exists (disk w)); cbn; repeat split.
  - destruct (mkdir_failure (disk w)); cbn; [repeat split|].
    destruct (model_exists (disk w)); cbn; repeat split.
Qed.

Lemma initializeModel_keeps (w : World) :
  auditLogs (snd (initializeModel w)) = auditLogs w /\
  modelSession (snd (initializeModel w)) = modelSession w /\
  clock (snd (initializeModel w)) = clock w.
Proof.
  unfold initializeModel.
  destruct (modelSession w) eqn:Hs; [cbn [snd]; auto|].
  destruct (modelLoadPromise w) as [[|e]|].
  - cbn. auto.
  - cbn. auto.
  - destruct (loadModel_keeps w) as (Ha & Hs' & _ & Hc).
    destruct (loadModel w) as [[[]|e] w1]; cbn in *; rewrite Ha, Hs', Hc;
      auto.
Qed.

(** X5: [downloadModel] fails only when the cache directory is missing and
    cannot be created, and then with the error of [mkdirSync] and a file
    system left as it was; in every other case it returns the model path with
    the cache directory in place, and whether the model file exists is as
    before: nothing is fetched. *)
Theorem downloadModel_outcome (w : World) :
  (dir_exists (disk w) = false /\
   exists e, mkdir_failure (disk w) = Some e /\
             fst (downloadModel w) = Throw e /\
             disk (snd (downloadModel w)) = disk w) \/
  ((dir_exists (disk w) = true \/ mkdir_failure (disk w) = None) /\
   fst (downloadModel w) = Normal ModelFile /\
   dir_exists (disk (snd (downloadModel w))) = true /\
   model_exists (disk (snd (downloadModel w))) = model_exists (disk w)).
Proof.
  unfold downloadModel, try_catch, bind, ret, throw, existsSync, mkdirSync.
  destruct (dir_exists (disk w)) eqn:Hd; cbn.
  - right. destruct (model_exists (disk w)) eqn:He; cbn; repeat split; auto.
  - destruct (mkdir_failure (disk w)) as [e|] eqn:Hm; cbn.
    + left. split; [reflexivity|]. exists e. repeat split.
    + right. destruct (model_exists (disk w)) eqn:He; cbn; repeat split; auto.
Qed.

Lemma step_keeps_session (w : World) (s : Step) :
  modelSession (step w s) = modelSession w.
Proof.
  destruct s; cbn [step]; try reflexivity.
  - apply detectNSFW_keeps_model.
  - apply initializeModel_keeps.
Qed.

Lemma steps_keep_session (l : list Step) (w : World) :
  modelSession (steps l w) = modelSession w.
Proof.
  revert w. induction l as [|s l IH]; intros w; [reflexivity|].
  cbn [steps fold_left]. fold (steps l (step w s)).
  rewrite IH. apply step_keeps_session.
Qed.

Lemma initializeModel_no_session (w : World) :
  modelSession w = None ->
  fst (initializeModel w) = Normal None \/ exists e, fst (initializeModel w) = Throw e.
Proof.
  intros Hs. unfold initializeModel. rewrite Hs.
  destruct (modelLoadPromise w) as [[|e]|].
  - left. cbn. now rewrite Hs.
  - right. now exists e.
  - destruct (loadModel_keeps w) as (_ & Hs' & _).
    destruct (loadModel w) as [[[]|e] w1]; cbn in *.
    + left. now rewrite Hs', Hs.
    + right. now exists e.
Qed.

(** X6: no inference session ever exists: starting without one, whatever
    calls are made and however the environment changes, [modelSession] stays
    [null], and [initializeModel] either throws or resolves to [null], never
    to a session. *)
Theorem initializeModel_never_yields_session (w : World) (later : list Step) :
  modelSession w = None ->
  modelSession (steps later w) = None /\
  (fst (initializeModel (steps later w)) = Normal None \/
   exists e, fst (initializeModel (steps later w)) = Throw e).
Proof.
  intros Hs.
  assert (Hs' : modelSession (steps later w) = None)
    by (now rewrite steps_keep_session).
  split; [exact Hs'|]. now apply initializeModel_no_session.
Qed.

Lemma initializeModel_never_yields_session_witness :
  modelSession
    (steps [StepInitializeModel;
            StepDetect Scenario.sharp_png Scenario.upload "cat.png" None None;
            StepEnvironment Scenario.repaired_disk 7]
       Scenario.start) = None /\
  (fst (initializeModel
          (steps [StepInitializeModel;
                  StepDetect Scenario.sharp_png Scenario.upload "cat.png" None None;
                  StepEnvironment Scenario.repaired_disk 7]
             Scenario.start)) = Normal None \/
   exists e,
     fst (initializeModel
            (steps [StepInitializeModel;
                    StepDetect Scenario.sharp_png Scenario.upload "cat.png" None None;
                    StepEnvironment Scenario.repaired_disk 7]
               Scenario.start)) = Throw e).
Proof.
  apply (initializeModel_never_yields_session Scenario.start).
  reflexivity.
Defined.

(** X8: on a disk where the cache directory exists or can be created, the
    first call of [initializeModel] succeeds: it resolves to [null] (no
    session is created), leaves [modelLoadPromise] fulfilled and the cache
    directory in place. *)
Theorem initializeModel_first_success (w : World) :
  modelSession w = None ->
  modelLoadPromise w = None ->
  dir_exists (disk w) = true \/ mkdir_failure (disk w) = None ->
  fst (initializeModel w) = Normal None /\
  modelLoadPromise (snd (initializeModel w)) = Some Fulfilled /\
  dir_exists (disk (snd (initializeModel w))) = true.
Proof.
  intros Hs Hp Hdisk. unfold initializeModel. rewrite Hs, Hp.
  unfold loadModel, downloadModel, try_catch, bind, ret, throw, existsSync,
    mkdirSync.
  destruct (dir_exists (disk w)) eqn:Hd; cbn.
  - destruct (model_exists (disk w)); cbn; rewrite Hs; repeat split; auto.
  - destruct Hdisk as [|Hm]; [discriminate|]. rewrite Hm. cbn.
    destruct (model_exists (disk w)); cbn; rewrite Hs; repeat split; auto.
Qed.

Lemma initializeModel_first_success_witness :
  fst (initializeModel Scenario.start) = Normal None /\
  modelLoadPromise (snd (initializeModel Scenario.start)) = Some Fulfilled /\
  dir_exists (disk (snd (initializeModel Scenario.start))) = true.
Proof.
  apply (initializeModel_first_success Scenario.start);
    [reflexivity | reflexivity | right; reflexivity].
Defined.

Lemma filter_sharp_calls (cs : list LibCall) :
  forallb is_sharp_call cs = true ->
  filter (fun c => negb (is_sharp_call c)) cs = [].
Proof.
  induction cs as [|c cs IH]; [reflexivity|].
  cbn [forallb filter]. intros H. apply andb_prop in H. destruct H as [Hc Hcs].
  rewrite Hc. cbn [negb]. now apply IH.
Qed.

Lemma detectNSFW_world (sharp : Sharp) (imageBuffer : Buffer)
    (fileName : string) (userId : option string) (fileSize : option Z) (w : World) :
  exists cs : list LibCall,
    forallb is_sharp_call cs = true /\
    calls (snd (detectNSFW sharp imageBuffer fileName userId fileSize w))
      = (calls w ++ cs)%list /\
    disk (snd (detectNSFW sharp imageBuffer fileName userId fileSize w)) = disk w /\
    clock (snd (detectNSFW sharp imageBuffer fileName userId fileSize w)) = clock w.
Proof.
  destruct (detectNSFW_cases sharp imageBuffer fileName userId fileSize w)
    as (r & log & cs & Hrun & Hcs & _).
  exists cs. rewrite Hrun. repeat split. exact Hcs.
Qed.

Lemma detectNSFW_fs_calls (sharp : Sharp) (imageBuffer : Buffer)
    (fileName : string) (userId : option string) (fileSize : option Z) (w : World) :
  fs_calls (snd (detectNSFW sharp imageBuffer fileName userId fileSize w))
  = fs_calls w.
Proof.
  destruct (detectNSFW_world sharp imageBuffer fileName userId fileSize w)
    as (cs & Hcs & Hcalls & _).
  unfold fs_calls. rewrite Hcalls, filter_app, (filter_sharp_calls cs Hcs).
  apply app_nil_r.
Qed.

Lemma initializeModel_settled (p : Promise) (w : World) :
  modelLoadPromise w = Some p -> snd (initializeModel w) = w.
Proof.
  intros Hp. unfold initializeModel.
  destruct (modelSession w); [reflexivity|].
  rewrite Hp. destruct p; reflexivity.
Qed.

Lemma step_settled (p : Promise) (w : World) (s : Step) :
  modelLoadPromise w = Some p ->
  modelLoadPromise (step w s) = Some p /\ fs_calls (step w s) = fs_calls w.
Proof.
  intros Hp. destruct s; cbn [step].
  - split; [|apply detectNSFW_fs_calls].
    destruct (detectNSFW_keeps_model sharp imageBuffer fileName userId fileSize w)
      as [_ Hp'].
    congruence.
  - now split.
  - now split.
  - now split.
  - rewrite (initializeModel_settled p w Hp). now split.
  - now split.
Qed.

(** X7: initialisation is attempted at most once per process: once
    [modelLoadPromise] holds a settled promise, fulfilled or rejected, no
    later call or change of the environment replaces it, no later call touches
    the file system, and [initializeModel] leaves the state as it finds it. *)
Theorem initializeModel_at_most_once (p : Promise) (w : World)
    (later : list Step) :
  modelLoadPromise w = Some p ->
  modelLoadPromise (steps later w) = Some p /\
  fs_calls (steps later w) = fs_calls w /\
  snd (initializeModel (steps later w)) = steps later w.
Proof.
  revert w. induction later as [|s later IH]; intros w Hp.
  - cbn [steps fold_left]. repeat split; [exact Hp|].
    now apply (initializeModel_settled p).
  - cbn [steps fold_left]. fold (steps later (step w s)).
    destruct (step_settled p w s Hp) as [Hp' Hfs].
    destruct (IH (step w s) Hp') as (H1 & H2 & H3).
    repeat split; [exact H1 | congruence | exact H3].
Qed.

Lemma initializeModel_at_most_once_witness :
  modelLoadPromise
    (steps [StepEnvironment Scenario.read_only_disk 3; StepInitializeModel;
            StepDetect Scenario.sharp_png Scenario.upload "cat.png" None None]
       (snd (initializeModel Scenario.start))) = Some Fulfilled /\
  fs_calls
    (steps [StepEnvironment Scenario.read_only_disk 3; StepInitializeModel;
            StepDetect Scenario.sharp_png Scenario.upload "cat.png" None None]
       (snd (initializeModel Scenario.start)))
  = fs_calls (snd (initializeModel Scenario.start)) /\
  snd (initializeModel
         (steps [StepEnvironment Scenario.read_only_disk 3; StepInitializeModel;
                 StepDetect Scenario.sharp_png Scenario.upload "cat.png" None None]
            (snd (initializeModel Scenario.start))))
  = steps [StepEnvironment Scenario.read_only_disk 3; StepInitializeModel;
           StepDetect Scenario.sharp_png Scenario.upload "cat.png" None None]
      (snd (initializeModel Scenario.start)).
Proof.
  apply (initializeModel_at_most_once Fulfilled (snd (initializeModel Scenario.start))).
  reflexivity.
Defined.

(** ** Detection, stage by stage *)

Lemma includes_In (l : list string) (s : string) :
  Js.includes l s = true <-> In s l.
Proof.
  unfold Js.includes. rewrite existsb_exists. split.
  - intros (x & Hx & Heq). apply String.eqb_eq in Heq. now subst.
  - intros H. exists s. split; [exact H | apply String.eqb_refl].
Qed.

Lemma format_rejected_iff (md : Metadata) :
  format_rejected md = true <->
  format md = None \/
  exists f, format md = Some f /\ ~ In f ["jpeg"; "png"; "webp"; "gif"].
Proof.
  unfold format_rejected. destruct (format md) as [f|]; cbn [Js.truthy_str].
  - split.
    + intros H. right. exists f. split; [reflexivity|]. intros Hin.
      destruct f as [|a f].
      * cbn in Hin. destruct Hin as [?|[?|[?|[?|[]]]]]; discriminate.
      * apply includes_In in Hin. cbn [negb orb] in H.
        rewrite Hin in H. discriminate.
    + intros [|(f' & [= <-] & Hnot)]; [discriminate|].
      apply orb_true_iff. right. apply negb_true_iff.
      destruct (Js.includes ["jpeg"; "png"; "webp"; "gif"] f) eqn:E;
        [|reflexivity].
      apply includes_In in E. contradiction.
  - split; [now left | reflexivity].
Qed.

Lemma oversize_iff (fileSize : option Z) :
  oversize fileSize = true <->
  exists size, fileSize = Some size /\ 52428800 < size.
Proof.
  unfold oversize, Js.truthy, exceeds.
  change (MAX_IMAGE_SIZE_MB * 1024 * 1024) with 52428800.
  destruct fileSize as [size|].
  - rewrite andb_true_iff, negb_true_iff, Z.eqb_neq, Z.ltb_lt. split.
    + intros [_ H]. now exists size.
    + intros (size' & [= <-] & H). split; lia.
  - split; [discriminate | intros (size & H & _); discriminate].
Qed.

Lemma not_oversize_iff (fileSize : option Z) :
  oversize fileSize = false <->
  forall size, fileSize = Some size -> size <= 52428800.
Proof.
  split.
  - intros H size Hs. destruct (Z.le_gt_cases size 52428800) as [|Hgt]; [assumption|].
    assert (Ho : oversize fileSize = true)
      by (apply oversize_iff; exists size; split; [assumption|lia]).
    congruence.
  - intros H. destruct (oversize fileSize) eqn:Ho; [|reflexivity].
    apply oversize_iff in Ho. destruct Ho as (size & Hs & Hgt).
    specialize (H size Hs). lia.
Qed.

Lemma String_of_error_prefix (e : Js.Error) :
  String.prefix "Error" (Js.String_of_error e) = true.
Proof. unfold Js.String_of_error. destruct (Js.message e); reflexivity. Qed.

Lemma prefix_Error_not (msg : string) :
  String.prefix "Error" msg = true ->
  msg <> "File size exceeds limit" /\ msg <> "Invalid image format".
Proof. intros H. split; intros ->; discriminate H. Qed.

(** X9: when the declared size passes and the metadata can be read, a
    missing format or one outside jpeg, png, webp and gif is rejected with
    the fail-closed verdict and the error 'Invalid image format'; the image
    is decoded no further (the metadata call is the only library call), and
    the record logged carries the decoded dimensions. *)
Theorem disallowed_format_rejected (sharp : Sharp) (imageBuffer : Buffer)
    (fileName : string) (userId : option string) (fileSize : option Z)
    (md : Metadata) (w : World) :
  (forall size, fileSize = Some size -> size <= 52428800) ->
  metadata sharp imageBuffer = Normal md ->
  (format md = None \/
   exists f, format md = Some f /\ ~ In f ["jpeg"; "png"; "webp"; "gif"]) ->
  exists w' : World,
    detectNSFW sharp imageBuffer fileName userId fileSize w =
      (Normal {| isNSFW := true; confidence := 1.0%float; category := nsfw;
                 error := Some "Invalid image format" |}, w') /\
    calls w' = (calls w ++ [SharpMetadata])%list /\
    auditLogs w' =
      last_n (Z.to_nat 10000)
        (auditLogs w ++
         [{| timestamp := clock w; log_userId := userId;
             log_fileName := fileName; log_isNSFW := true;
             log_confidence := 1.0%float;
             log_fileSize := Js.or_zero fileSize;
             log_dimensions := dimensions_of md;
             log_error := Some "Invalid image format" |}]).
Proof.
  intros Hsize Hmd Hfmt.
  apply not_oversize_iff in Hsize. apply format_rejected_iff in Hfmt.
  eexists. split.
  - apply (detectNSFW_format_rejected sharp imageBuffer fileName userId fileSize
             w md Hsize Hmd Hfmt).
  - rewrite logAudit_spec. split; reflexivity.
Qed.

Lemma disallowed_format_rejected_witness :
  exists w' : World,
    detectNSFW
      {| metadata := fun _ =>
           Normal {| format := Some "svg"; width := Some 32; height := Some 0 |};
         resize_png := fun b => Normal b;
         raw_pixels := fun _ => Throw Scenario.invalid_toBuffer_options |}
      Scenario.upload "logo.svg" None None Scenario.start =
      (Normal {| isNSFW := true; confidence := 1.0%float; category := nsfw;
                 error := Some "Invalid image format" |}, w') /\
    calls w' = (calls Scenario.start ++ [SharpMetadata])%list /\
    auditLogs w' =
      last_n (Z.to_nat 10000)
        (auditLogs Scenario.start ++
         [{| timestamp := clock Scenario.start; log_userId := None;
             log_fileName := "logo.svg"; log_isNSFW := true;
             log_confidence := 1.0%float;
             log_fileSize := Js.or_zero None;
             log_dimensions :=
               dimensions_of
                 {| format := Some "svg"; width := Some 32; height := Some 0 |};
             log_error := Some "Invalid image format" |}]).
Proof.
  apply disallowed_format_rejected.
  - intros size [=].
  - reflexivity.
  - right. exists "svg". split; [reflexivity|].
    cbn. intros [?|[?|[?|[?|[]]]]]; discriminate.
Defined.

Ltac close_stage :=
  first
    [ discriminate
    | reflexivity
    | contradiction
    | intros [= ?]; contradiction
    | intros [? _]; discriminate
    | intros [_ ?]; contradiction
    | intros ? [= <-]; auto
    | intros (_ & ? & [=] & _)
    | match goal with
      | H : Some _ = Some _ |- _ => injection H as ?; contradiction
      end ].

(** X10: the error text of a result names the stage that failed: it is
    'File size exceeds limit' exactly when a size above 50 MB was declared;
    it is 'Invalid image format' exactly when the declared size passed, the
    metadata could be read and the format is missing or not allowed; any
    other error text is a stringified error and starts with 'Error'. *)
Theorem error_text_names_stage (sharp : Sharp) (imageBuffer : Buffer)
    (fileName : string) (userId : option string) (fileSize : option Z)
    (w : World) :
  exists (r : NSFWDetectionResult) (w' : World),
    detectNSFW sharp imageBuffer fileName userId fileSize w = (Normal r, w') /\
    (error r = Some "File size exceeds limit" <->
     exists size, fileSize = Some size /\ 52428800 < size) /\
    (error r = Some "Invalid image format" <->
     (forall size, fileSize = Some size -> size <= 52428800) /\
     exists md, metadata sharp imageBuffer = Normal md /\
       (format md = None \/
        exists f, format md = Some f /\ ~ In f ["jpeg"; "png"; "webp"; "gif"])) /\
    (forall msg, error r = Some msg ->
       msg = "File size exceeds limit" \/ msg = "Invalid image format" \/
       String.prefix "Error" msg = true).
Proof.
  setoid_rewrite <- oversize_iff. setoid_rewrite <- not_oversize_iff.
  destruct (oversize fileSize) eqn:Hsize.
  { eexists _, _. split; [eapply detectNSFW_oversize; eassumption|].
    cbn [error fail_closed]. repeat split; try solve [close_stage]. }
  destruct (metadata sharp imageBuffer) as [md|e] eqn:Hmd.
  2:{ eexists _, _. split; [eapply detectNSFW_metadata_throws; eassumption|].
      cbn [error fail_closed].
      pose proof (String_of_error_prefix e) as Hpre.
      destruct (prefix_Error_not _ Hpre) as [H1 H2].
      repeat split; try solve [close_stage]. }
  destruct (format_rejected md) eqn:Hfmt.
  { eexists _, _. split; [eapply detectNSFW_format_rejected; eassumption|].
    cbn [error fail_closed]. repeat split; try solve [close_stage].
    exists md. split; [reflexivity|]. now apply format_rejected_iff. }
  assert (Hnot : ~ (exists md0, Normal md = Normal md0 /\
                    (format md0 = None \/
                     exists f, format md0 = Some f /\
                               ~ In f ["jpeg"; "png"; "webp"; "gif"]))).
  { intros (md0 & [= <-] & H). apply format_rejected_iff in H. congruence. }
  destruct (preprocessImage_run sharp imageBuffer) as (t & cs & _ & Hpre).
  destruct t as [t|].
  - eexists _, _. split.
    + eapply (detectNSFW_classified sharp imageBuffer fileName userId fileSize w);
        try eassumption. apply Hpre.
    + rewrite verdict_mock. cbn [error].
      repeat split; try solve [close_stage].
  - eexists _, _. split.
    + eapply (detectNSFW_preprocess_failed sharp imageBuffer fileName userId
                fileSize w); try eassumption. apply Hpre.
    + cbn [error fail_closed]. repeat split; try solve [close_stage].
Qed.

(** X11: the verdict of a call depends on the upload and on the image
    library only, not on the process state: the same call made in two states
    (another audit log, model state, file system or time) returns the same
    result. *)
Theorem verdict_independent_of_state (sharp : Sharp) (imageBuffer : Buffer)
    (fileName : string) (userId : option string) (fileSize : option Z)
    (w1 w2 : World) :
  fst (detectNSFW sharp imageBuffer fileName userId fileSize w1) =
  fst (detectNSFW sharp imageBuffer fileName userId fileSize w2).
Proof.
  destruct (oversize fileSize) eqn:Hsize.
  { now rewrite !detectNSFW_oversize. }
  destruct (metadata sharp imageBuffer) as [md|e] eqn:Hmd.
  2:{ now rewrite !(detectNSFW_metadata_throws sharp imageBuffer fileName userId
                      fileSize _ e Hsize Hmd). }
  destruct (format_rejected md) eqn:Hfmt.
  { now rewrite !(detectNSFW_format_rejected sharp imageBuffer fileName userId
                    fileSize _ md Hsize Hmd Hfmt). }
  destruct (preprocessImage_run sharp imageBuffer) as (t & cs & _ & Hpre).
  destruct t as [t|].
  - rewrite (detectNSFW_classified sharp imageBuffer fileName userId fileSize
               w1 _ md t Hsize Hmd Hfmt (Hpre _)).
    rewrite (detectNSFW_classified sharp imageBuffer fileName userId fileSize
               w2 _ md t Hsize Hmd Hfmt (Hpre _)).
    reflexivity.
  - rewrite (detectNSFW_preprocess_failed sharp imageBuffer fileName userId
               fileSize w1 _ md Hsize Hmd Hfmt (Hpre _)).
    rewrite (detectNSFW_preprocess_failed sharp imageBuffer fileName userId
               fileSize w2 _ md Hsize Hmd Hfmt (Hpre _)).
    reflexivity.
Qed.

(** X12: on every path, failures included, [detectNSFW] leaves the model
    session, the load promise, the file system and the clock as they were;
    the only library calls it makes are calls into the image library, so the
    file system is never consulted. *)
Theorem detectNSFW_touches_only_the_log (sharp : Sharp) (imageBuffer : Buffer)
    (fileName : string) (userId : option string) (fileSize : option Z)
    (w : World) :
  exists (r : NSFWDetectionResult) (w' : World) (cs : list LibCall),
    detectNSFW sharp imageBuffer fileName userId fileSize w = (Normal r, w') /\
    modelSession w' = modelSession w /\
    modelLoadPromise w' = modelLoadPromise w /\
    disk w' = disk w /\
    clock w' = clock w /\
    calls w' = (calls w ++ cs)%list /\
    forallb is_sharp_call cs = true /\
    fs_calls w' = fs_calls w.
Proof.
  destruct (detectNSFW_cases sharp imageBuffer fileName userId fileSize w)
    as (r & log & cs & Hrun & Hcs & _).
  exists r, (snd (logAudit log (record_calls cs w))), cs.
  split; [exact Hrun|]. repeat split; [exact Hcs|].
  unfold fs_calls. cbn [snd logAudit set_auditLogs calls record_calls].
  rewrite filter_app, (filter_sharp_calls cs Hcs). apply app_nil_r.
Qed.

(** X13: a call returns one of two verdicts only: the fail-closed one
    ([isNSFW], confidence 1, category [nsfw]) exactly when a stage failed, and
    otherwise confidence 0.15 with category [safe].  No upload is ever
    classified [uncertain], and none is blocked for its content. *)
Theorem detectNSFW_two_verdicts (sharp : Sharp) (imageBuffer : Buffer)
    (fileName : string) (userId : option string) (fileSize : option Z)
    (w : World) :
  exists (r : NSFWDetectionResult) (w' : World),
    detectNSFW sharp imageBuffer fileName userId fileSize w = (Normal r, w') /\
    (isNSFW r = true <-> pipeline_failed sharp imageBuffer fileSize) /\
    (pipeline_failed sharp imageBuffer fileSize ->
     confidence r = 1.0%float /\ category r = nsfw) /\
    (~ pipeline_failed sharp imageBuffer fileSize ->
     isNSFW r = false /\ confidence r = 0.15%float /\ category r = safe /\
     error r = None) /\
    category r <> uncertain.
Proof.
  destruct (detectNSFW_cases sharp imageBuffer fileName userId fileSize w)
    as (r & log & cs & Hrun & _ & _ & [(msg & -> & _ & Hfail)|[-> Hok]]).
  - eexists _, _. split; [exact Hrun|]. cbn [fail_closed isNSFW confidence category].
    repeat split; try discriminate; try contradiction; auto.
  - eexists _, _. split; [exact Hrun|]. rewrite verdict_mock.
    cbn [isNSFW confidence category error].
    repeat split; try discriminate; try contradiction; auto.
Qed.

(** X14: an image of an allowed format whose metadata lacks a width or a
    height, or gives it as 0, is rejected: [preprocessImage] returns [null]
    after the metadata call alone, and the result carries the error 'Error:
    Image preprocessing failed'; the inner 'Invalid image dimensions' never
    reaches the caller, and the record logged has no dimensions. *)
Theorem missing_dimension_fails_closed (sharp : Sharp) (imageBuffer : Buffer)
    (fileName : string) (userId : option string) (fileSize : option Z)
    (md : Metadata) (w : World) :
  (forall size, fileSize = Some size -> size <= 50 * 1024 * 1024) ->
  metadata sharp imageBuffer = Normal md ->
  (exists f, format md = Some f /\ In f ["jpeg"; "png"; "webp"; "gif"]) ->
  (width md = None \/ width md = Some 0 \/
   height md = None \/ height md = Some 0) ->
  exists w' : World,
    detectNSFW sharp imageBuffer fileName userId fileSize w =
      (Normal {| isNSFW := true; confidence := 1.0%float; category := nsfw;
                 error := Some "Error: Image preprocessing failed" |}, w') /\
    calls w' = (calls w ++ [SharpMetadata; SharpMetadata])%list /\
    auditLogs w' =
      last_n (Z.to_nat 10000)
        (auditLogs w ++
         [{| timestamp := clock w; log_userId := userId;
             log_fileName := fileName; log_isNSFW := true;
             log_confidence := 1.0%float;
             log_fileSize := Js.or_zero fileSize;
             log_dimensions := None;
             log_error := Some "Error: Image preprocessing failed" |}]).
Proof.
  intros Hsize Hmd (f & Hf & Hin) Hdim.
  assert (Hmissing : negb (Js.truthy (width md)) || negb (Js.truthy (height md))
                     = true).
  { apply orb_true_iff.
    destruct Hdim as [H|[H|[H|H]]]; rewrite H; [left|left|right|right];
      reflexivity. }
  eexists. split.
  - eapply (detectNSFW_preprocess_failed sharp imageBuffer fileName userId
              fileSize w).
    + now apply oversize_within_cap.
    + exact Hmd.
    + now apply (format_allowed md f).
    + rewrite preprocessImage_eval, Hmd, Hmissing. reflexivity.
  - rewrite logAudit_spec.
    cbn [snd set_auditLogs calls auditLogs clock record_calls].
    split; [now rewrite <- app_assoc | reflexivity].
Qed.

Lemma missing_dimension_fails_closed_witness :
  exists w' : World,
    detectNSFW
      {| metadata := fun _ =>
           Normal {| format := Some "gif"; width := Some 12; height := None |};
         resize_png := fun b => Normal b;
         raw_pixels := fun _ => Throw Scenario.invalid_toBuffer_options |}
      Scenario.upload "anim.gif" (Some "u2") (Some 900) Scenario.start =
      (Normal {| isNSFW := true; confidence := 1.0%float; category := nsfw;
                 error := Some "Error: Image preprocessing failed" |}, w') /\
    calls w' = (calls Scenario.start ++ [SharpMetadata; SharpMetadata])%list /\
    auditLogs w' =
      last_n (Z.to_nat 10000)
        (auditLogs Scenario.start ++
         [{| timestamp := clock Scenario.start; log_userId := Some "u2";
             log_fileName := "anim.gif"; log_isNSFW := true;
             log_confidence := 1.0%float;
             log_fileSize := Js.or_zero (Some 900);
             log_dimensions := None;
             log_error := Some "Error: Image preprocessing failed" |}]).
Proof.
  apply (missing_dimension_fails_closed _ _ _ _ _
           {| format := Some "gif"; width := Some 12; height := None |}).
  - intros size [= <-]. lia.
  - reflexivity.
  - exists "gif". split; [reflexivity|]. cbn. auto.
  - right. right. left. reflexivity.
Defined.

(** ** The audit log, queried and summarised *)

Lemma detectNSFW_log (sharp : Sharp) (imageBuffer : Buffer)
    (fileName : string) (userId : option string) (fileSize : option Z) (w : World) :
  exists (r : NSFWDetectionResult) (w' : World) (auditEntry : NSFWAuditLog),
    detectNSFW sharp imageBuffer fileName userId fileSize w = (Normal r, w') /\
    auditLogs w' =
      last_n (Z.to_nat AUDIT_LOG_BOUND) (auditLogs w ++ [auditEntry]) /\
    log_isNSFW auditEntry = isNSFW r /\
    log_error auditEntry = error r.
Proof.
  destruct (detectNSFW_cases sharp imageBuffer fileName userId fileSize w)
    as (r & log & cs & Hrun & _ & (H1 & _ & H3 & _) & _).
  exists r, (snd (logAudit log (record_calls cs w))), (entry_at (clock w) log).
  split; [exact Hrun|]. rewrite logAudit_spec. repeat split; assumption.
Qed.

(** X15: a detection call made while the log holds fewer than 10,000
    records raises the total of [getNSFWStats] by one, and raises the blocked
    count by one when the verdict blocks and the allowed count by one when it
    does not. *)
Theorem stats_after_detection (sharp : Sharp) (imageBuffer : Buffer)
    (fileName : string) (userId : option string) (fileSize : option Z)
    (w : World) :
  Z.of_nat (length (auditLogs w)) < 10000 ->
  exists (r : NSFWDetectionResult) (w' : World) (before after : Stats),
    detectNSFW sharp imageBuffer fileName userId fileSize w = (Normal r, w') /\
    fst (getNSFWStats w) = Normal before /\
    fst (getNSFWStats w') = Normal after /\
    totalChecks after = totalChecks before + 1 /\
    blockedCount after = blockedCount before + (if isNSFW r then 1 else 0) /\
    allowedCount after = allowedCount before + (if isNSFW r then 0 else 1).
Proof.
  intros Hroom.
  destruct (detectNSFW_log sharp imageBuffer fileName userId fileSize w)
    as (r & w' & auditEntry & Hrun & Hlog & Hv & _).
  rewrite last_n_all in Hlog.
  2:{ rewrite length_app. cbn [length].
      change 10000 with AUDIT_LOG_BOUND in Hroom. pose proof bound_to_nat. lia. }
  exists r, w'. eexists _, _. split; [exact Hrun|].
  split; [reflexivity|]. split; [reflexivity|].
  cbn [totalChecks blockedCount allowedCount].
  rewrite Hlog, filter_app, !length_app. cbn [filter length].
  rewrite Hv. destruct (isNSFW r); cbn [length]; lia.
Qed.

Lemma stats_after_detection_witness :
  exists (r : NSFWDetectionResult) (w' : World) (before after : Stats),
    detectNSFW Scenario.sharp_unreadable Scenario.upload "x.bin" None None
      (record_all Scenario.three_of_four Scenario.start) = (Normal r, w') /\
    fst (getNSFWStats (record_all Scenario.three_of_four Scenario.start))
      = Normal before /\
    fst (getNSFWStats w') = Normal after /\
    totalChecks after = totalChecks before + 1 /\
    blockedCount after = blockedCount before + (if isNSFW r then 1 else 0) /\
    allowedCount after = allowedCount before + (if isNSFW r then 0 else 1).
Proof.
  apply stats_after_detection. vm_compute. reflexivity.
Defined.

Lemma step_log_bound (w : World) (s : Step) :
  Z.of_nat (length (auditLogs w)) <= AUDIT_LOG_BOUND ->
  Z.of_nat (length (auditLogs (step w s))) <= AUDIT_LOG_BOUND.
Proof.
  intros Hw. destruct s; cbn [step]; try exact Hw.
  - destruct (detectNSFW_cases sharp imageBuffer fileName userId fileSize w)
      as (r & log & cs & Hrun & _).
    rewrite Hrun. apply logAudit_length.
  - apply bound_nonneg.
  - destruct (initializeModel_keeps w) as (Ha & _). now rewrite Ha.
Qed.

Lemma steps_log_bound (l : list Step) (w : World) :
  Z.of_nat (length (auditLogs w)) <= AUDIT_LOG_BOUND ->
  Z.of_nat (length (auditLogs (steps l w))) <= AUDIT_LOG_BOUND.
Proof.
  revert w. induction l as [|s l IH]; intros w Hw; [exact Hw|].
  apply IH. now apply step_log_bound.
Qed.

(** X16: starting from a log within the bound (the empty log at process
    start in particular), after any sequence of calls to the module the
    statistics satisfy [0 <= blocked <= total <= 10000] and
    [0 <= allowed <= total]: the figures are over the last 10,000 checks at
    most. *)
Theorem stats_within_bounds (w : World) (later : list Step) :
  Z.of_nat (length (auditLogs w)) <= 10000 ->
  exists st : Stats,
    fst (getNSFWStats (steps later w)) = Normal st /\
    0 <= blockedCount st <= totalChecks st /\
    totalChecks st <= 10000 /\
    0 <= allowedCount st <= totalChecks st.
Proof.
  intros Hw. apply (steps_log_bound later) in Hw.
  eexists. split; [reflexivity|].
  cbn [totalChecks blockedCount allowedCount].
  rewrite filter_length_count.
  pose proof (count_records_split log_isNSFW (auditLogs (steps later w))).
  change 10000 with AUDIT_LOG_BOUND. lia.
Qed.

Lemma stats_within_bounds_witness :
  exists st : Stats,
    fst (getNSFWStats
           (steps [StepDetect Scenario.sharp_png Scenario.upload "a.png" None None;
                   StepClearAuditLogs;
                   StepDetect Scenario.sharp_wide Scenario.upload "b.jpg" None None]
              Scenario.start)) = Normal st /\
    0 <= blockedCount st <= totalChecks st /\
    totalChecks st <= 10000 /\
    0 <= allowedCount st <= totalChecks st.
Proof.
  apply stats_within_bounds. vm_compute. discriminate.
Defined.

Lemma last_n_snoc (A : Type) (n : nat) (older : list A) (newest : A) :
  (1 <= n)%nat ->
  last_n n (older ++ [newest]) = (last_n (n - 1) older ++ [newest])%list.
Proof.
  intros Hn. unfold last_n. rewrite length_app. cbn [length].
  rewrite skipn_app.
  replace (length older + 1 - n)%nat with (length older - (n - 1))%nat by lia.
  replace (length older - (n - 1) - length older)%nat with 0%nat by lia.
  reflexivity.
Qed.

(** X17: for a limit of at least one, [getAuditLogs] returns the [limit]
    most recent records, newest first: their number is the smaller of the
    limit and the size of the log, the record logged last comes first, and
    the log is left as it was. *)
Theorem getAuditLogs_returns_most_recent (limit : Z) (w : World) :
  1 <= limit ->
  exists l : list NSFWAuditLog,
    getAuditLogs limit w = (Normal l, w) /\
    l = rev (last_n (Z.to_nat limit) (auditLogs w)) /\
    length l = Nat.min (Z.to_nat limit) (length (auditLogs w)) /\
    (forall older newest,
        auditLogs w = (older ++ [newest])%list -> hd_error l = Some newest).
Proof.
  intros Hlimit. eexists. split; [apply getAuditLogs_positive; lia|].
  split; [reflexivity|]. split.
  - now rewrite length_rev, last_n_length.
  - intros older newest ->. rewrite last_n_snoc by lia.
    now rewrite rev_app_distr.
Qed.

Lemma getAuditLogs_returns_most_recent_witness :
  exists l : list NSFWAuditLog,
    getAuditLogs 3 (record_all Scenario.three_of_four Scenario.start)
      = (Normal l, record_all Scenario.three_of_four Scenario.start) /\
    l = rev (last_n (Z.to_nat 3)
               (auditLogs (record_all Scenario.three_of_four Scenario.start))) /\
    length l = Nat.min (Z.to_nat 3)
                 (length (auditLogs (record_all Scenario.three_of_four Scenario.start))) /\
    (forall older newest,
        auditLogs (record_all Scenario.three_of_four Scenario.start)
          = (older ++ [newest])%list -> hd_error l = Some newest).
Proof.
  apply getAuditLogs_returns_most_recent. lia.
Defined.

(** X18: a negative limit is neither an error nor an empty answer:
    [getAuditLogs(-k)] returns every record except the [k] oldest, newest
    first (nothing when the log holds [k] records or fewer). *)
Theorem getAuditLogs_negative_limit (k : Z) (w : World) :
  0 < k ->
  getAuditLogs (- k) w = (Normal (rev (skipn (Z.to_nat k) (auditLogs w))), w).
Proof.
  intros Hk. unfold getAuditLogs, Js.slice. rewrite Z.opp_involutive.
  destruct (Z.ltb_spec k 0) as [|_]; [lia|].
  destruct (Z.le_gt_cases k (Z.of_nat (length (auditLogs w)))) as [Hle|Hgt].
  - now rewrite Z.min_l.
  - rewrite Z.min_r by lia. rewrite Nat2Z.id, skipn_all.
    now rewrite skipn_all2 by lia.
Qed.

Lemma getAuditLogs_negative_limit_witness :
  getAuditLogs (- 1) (record_all Scenario.two_records Scenario.start) =
  (Normal (rev (skipn (Z.to_nat 1)
                  (auditLogs (record_all Scenario.two_records Scenario.start)))),
   record_all Scenario.two_records Scenario.start).
Proof.
  apply (getAuditLogs_negative_limit 1). lia.
Defined.

Lemma nondecreasing_skipn (n : nat) (ts : list Z) :
  nondecreasing ts -> nondecreasing (skipn n ts).
Proof.
  revert ts. induction n as [|n IH]; intros ts H; [exact H|].
  destruct ts as [|t ts]; [exact H|].
  cbn [skipn]. apply IH. now destruct H.
Qed.

Lemma newest_first_snoc (l : list NSFWAuditLog) (r : NSFWAuditLog) :
  newest_first l ->
  Forall (fun r' => timestamp r <= timestamp r') l ->
  newest_first (l ++ [r]).
Proof.
  induction l as [|a l IH]; intros Hl Hr.
  - cbn. split; [constructor | exact I].
  - cbn [app newest_first]. destruct Hl as [Ha Hl].
    inversion Hr as [|? ? Hra Hr']; subst. split.
    + apply Forall_app. split; [exact Ha|]. constructor; [exact Hra|constructor].
    + now apply IH.
Qed.

Lemma newest_first_rev (l : list NSFWAuditLog) :
  nondecreasing (map timestamp l) -> newest_first (rev l).
Proof.
  induction l as [|r l IH]; intros H; [exact I|].
  cbn [map nondecreasing] in H. destruct H as [Hr Hl].
  cbn [rev]. apply newest_first_snoc; [now apply IH|].
  apply Forall_rev. rewrite Forall_map in Hr. exact Hr.
Qed.

Lemma entries_timestamps (es : list (Z * AuditFields)) :
  map timestamp (entries es) = map fst es.
Proof.
  unfold entries. rewrite map_map. reflexivity.
Qed.

(** X19: when the clock does not run backwards between record operations,
    whatever [getAuditLogs] returns, for any limit, is in reverse
    chronological order: no record is newer than one before it. *)
Theorem getAuditLogs_newest_first (es : list (Z * AuditFields)) (w : World)
    (limit : Z) :
  auditLogs w = [] ->
  nondecreasing (map fst es) ->
  exists l : list NSFWAuditLog,
    fst (getAuditLogs limit (record_all es w)) = Normal l /\ newest_first l.
Proof.
  intros Hempty Htimes. eexists. split; [reflexivity|].
  apply newest_first_rev. unfold Js.slice. rewrite <- skipn_map.
  apply nondecreasing_skipn.
  rewrite record_all_spec by (rewrite Hempty; apply bound_nonneg).
  rewrite Hempty. cbn [app]. unfold last_n. rewrite <- skipn_map.
  apply nondecreasing_skipn. now rewrite entries_timestamps.
Qed.

Lemma getAuditLogs_newest_first_witness :
  exists l : list NSFWAuditLog,
    fst (getAuditLogs 3 (record_all Scenario.three_of_four Scenario.start))
      = Normal l /\ newest_first l.
Proof.
  apply getAuditLogs_newest_first; [reflexivity|].
  cbn. repeat constructor; lia.
Defined.

(** X20: [clearAuditLogs] forgets every record, however many there were:
    after it, the next detection leaves a log of exactly one record, the one
    of that detection, which is all [getAuditLogs()] (with its default limit
    of 100) returns and all [getNSFWStats] counts. *)
Theorem clear_then_detect_then_query (sharp : Sharp) (imageBuffer : Buffer)
    (fileName : string) (userId : option string) (fileSize : option Z)
    (w : World) :
  exists (r : NSFWDetectionResult) (w' : World) (auditEntry : NSFWAuditLog)
         (st : Stats),
    detectNSFW sharp imageBuffer fileName userId fileSize
      (snd (clearAuditLogs w)) = (Normal r, w') /\
    fst (getAuditLogs_default w') = Normal [auditEntry] /\
    log_isNSFW auditEntry = isNSFW r /\
    log_error auditEntry = error r /\
    fst (getNSFWStats w') = Normal st /\
    totalChecks st = 1.
Proof.
  destruct (detectNSFW_log sharp imageBuffer fileName userId fileSize
              (snd (clearAuditLogs w)))
    as (r & w' & auditEntry & Hrun & Hlog & Hv & He).
  cbn [snd clearAuditLogs set_auditLogs auditLogs app] in Hlog.
  rewrite last_n_all in Hlog by (cbn [length]; pose proof bound_to_nat;
                                 unfold AUDIT_LOG_BOUND in *; lia).
  exists r, w', auditEntry. eexists. split; [exact Hrun|].
  split.
  - unfold getAuditLogs_default. rewrite getAuditLogs_positive by lia.
    rewrite Hlog. rewrite last_n_all by (cbn [length]; lia). reflexivity.
  - repeat split; try assumption.
    cbn [totalChecks]. now rewrite Hlog.
Qed.

(** ** What a call records *)

(** X21: when the declared size passes and the image library rejects the
    metadata read with an error of message [m], the call returns the
    fail-closed verdict whose error is the stringified error ('Error: m', or
    'Error' for an empty message); the rejected call is the only library
    call, and the record logged carries that error and no dimensions. *)
Theorem unreadable_image_rejected (sharp : Sharp) (imageBuffer : Buffer)
    (fileName : string) (userId : option string) (fileSize : option Z)
    (m : string) (w : World) :
  (forall size, fileSize = Some size -> size <= 52428800) ->
  metadata sharp imageBuffer = Throw (Js.mkError m) ->
  exists (w' : World) (text : string),
    text = (if String.eqb m "" then "Error" else "Error: " ++ m) /\
    detectNSFW sharp imageBuffer fileName userId fileSize w =
      (Normal {| isNSFW := true; confidence := 1.0%float; category := nsfw;
                 error := Some text |}, w') /\
    calls w' = (calls w ++ [SharpMetadata])%list /\
    auditLogs w' =
      last_n (Z.to_nat 10000)
        (auditLogs w ++
         [{| timestamp := clock w; log_userId := userId;
             log_fileName := fileName; log_isNSFW := true;
             log_confidence := 1.0%float;
             log_fileSize := Js.or_zero fileSize;
             log_dimensions := None;
             log_error := Some text |}]).
Proof.
  intros Hsize Hmd. apply not_oversize_iff in Hsize.
  exists (snd (logAudit (failure_fields fileName userId fileSize None
                           (Js.String_of_error (Js.mkError m)))
                 (record_calls [SharpMetadata] w))),
         (Js.String_of_error (Js.mkError m)).
  split; [destruct m; reflexivity|]. split.
  - apply (detectNSFW_metadata_throws sharp imageBuffer fileName userId fileSize
             w (Js.mkError m) Hsize Hmd).
  - rewrite logAudit_spec. split; reflexivity.
Qed.

Lemma unreadable_image_rejected_witness :
  exists (w' : World) (text : string),
    text = "Error: Input buffer contains unsupported image format" /\
    detectNSFW Scenario.sharp_unreadable Scenario.upload "x.bin" None (Some 10)
      Scenario.start =
      (Normal {| isNSFW := true; confidence := 1.0%float; category := nsfw;
                 error := Some text |}, w') /\
    calls w' = (calls Scenario.start ++ [SharpMetadata])%list /\
    auditLogs w' =
      last_n (Z.to_nat 10000)
        (auditLogs Scenario.start ++
         [{| timestamp := clock Scenario.start; log_userId := None;
             log_fileName := "x.bin"; log_isNSFW := true;
             log_confidence := 1.0%float;
             log_fileSize := Js.or_zero (Some 10);
             log_dimensions := None;
             log_error := Some text |}]).
Proof.
  apply (unreadable_image_rejected Scenario.sharp_unreadable Scenario.upload
           "x.bin" None (Some 10)
           "Input buffer contains unsupported image format" Scenario.start).
  - intros size [= <-]. lia.
  - reflexivity.
Defined.

(** X22: with an image library that rejects the raw decoding call, as the
    installed one does for the options object passed there, nothing gets
    through: [preprocessImage] never returns a tensor, every call of
    [detectNSFW] returns the fail-closed verdict with an error, and an upload
    that passes the size and format checks is rejected with 'Error: Image
    preprocessing failed'. *)
Theorem every_upload_blocked (sharp : Sharp) (imageBuffer : Buffer)
    (fileName : string) (userId : option string) (fileSize : option Z)
    (w : World) :
  raw_decoding_rejected sharp ->
  (forall w0, fst (preprocessImage sharp imageBuffer w0) = Normal None) /\
  exists (r : NSFWDetectionResult) (w' : World),
    detectNSFW sharp imageBuffer fileName userId fileSize w = (Normal r, w') /\
    isNSFW r = true /\ confidence r = 1.0%float /\ category r = nsfw /\
    error r <> None /\
    ((forall size, fileSize = Some size -> size <= 52428800) ->
     (exists md f, metadata sharp imageBuffer = Normal md /\
                   format md = Some f /\
                   In f ["jpeg"; "png"; "webp"; "gif"]) ->
     error r = Some "Error: Image preprocessing failed").
Proof.
  intros Hraw.
  assert (Hnull : forall w0,
             fst (preprocessImage sharp imageBuffer w0) = Normal None).
  { intros w0. rewrite preprocessImage_eval.
    destruct (metadata sharp imageBuffer) as [md|e]; [|reflexivity].
    destruct (negb (Js.truthy (width md)) || negb (Js.truthy (height md)));
      [reflexivity|].
    destruct (exceeds (width md) MAX_IMAGE_DIMENSION
              || exceeds (height md) MAX_IMAGE_DIMENSION); [reflexivity|].
    destruct (resize_png sharp imageBuffer) as [resized|e]; [|reflexivity].
    destruct (Hraw resized) as [e He]. now rewrite He. }
  split; [exact Hnull|].
  destruct (oversize fileSize) eqn:Hsize.
  { eexists _, _. split; [eapply detectNSFW_oversize; eassumption|].
    cbn [fail_closed isNSFW confidence category error].
    repeat split; try discriminate.
    intros Hcap. apply not_oversize_iff in Hcap. congruence. }
  destruct (metadata sharp imageBuffer) as [md|e] eqn:Hmd.
  2:{ eexists _, _. split; [eapply detectNSFW_metadata_throws; eassumption|].
      cbn [fail_closed isNSFW confidence category error].
      repeat split; try discriminate.
      intros _ (md & f & [=] & _). }
  destruct (format_rejected md) eqn:Hfmt.
  { eexists _, _. split; [eapply detectNSFW_format_rejected; eassumption|].
    cbn [fail_closed isNSFW confidence category error].
    repeat split; try discriminate.
    intros _ (md' & f & [= <-] & Hf & Hin).
    rewrite (format_allowed md f Hf Hin) in Hfmt. discriminate. }
  destruct (preprocessImage_run sharp imageBuffer) as (t & cs & _ & Hpre).
  assert (Ht : t = None).
  { specialize (Hnull w). rewrite Hpre in Hnull. cbn [fst] in Hnull. congruence. }
  subst t.
  eexists _, _. split.
  - eapply (detectNSFW_preprocess_failed sharp imageBuffer fileName userId
              fileSize w); try eassumption. apply Hpre.
  - cbn [fail_closed isNSFW confidence category error].
    repeat split; try discriminate.
Qed.

Lemma every_upload_blocked_witness :
  (forall w0,
      fst (preprocessImage Scenario.sharp_png Scenario.upload w0) = Normal None) /\
  exists (r : NSFWDetectionResult) (w' : World),
    detectNSFW Scenario.sharp_png Scenario.upload "cat.png" (Some "u1") None
      Scenario.start = (Normal r, w') /\
    isNSFW r = true /\ confidence r = 1.0%float /\ category r = nsfw /\
    error r <> None /\
    ((forall size, @None Z = Some size -> size <= 52428800) ->
     (exists md f, metadata Scenario.sharp_png Scenario.upload = Normal md /\
                   format md = Some f /\
                   In f ["jpeg"; "png"; "webp"; "gif"]) ->
     error r = Some "Error: Image preprocessing failed").
Proof.
  apply (every_upload_blocked Scenario.sharp_png Scenario.upload "cat.png"
           (Some "u1") None Scenario.start).
  intros b. exists Scenario.invalid_toBuffer_options. reflexivity.
Defined.

(** ** The block rate at its ends *)

Lemma In_times_from (n : nat) (a t : Z) :
  a <= t < a + Z.of_nat n -> In t (Scenario.times_from a n).
Proof.
  revert a. induction n as [|n IH]; intros a H; [lia|].
  cbn [Scenario.times_from]. destruct (Z.eq_dec a t) as [->|Hne]; [now left|].
  right. apply IH. lia.
Qed.

(** For every total from 1 to 10,000, dividing 0 by it and multiplying by
    100 gives 0 on doubles, and dividing it by itself gives 100. *)
Lemma rate_extremes_checked :
  forallb
    (fun t =>
       PrimFloat.Leibniz.eqb (Js.of_Z 0 / Js.of_Z t * 100)%float 0%float
       && PrimFloat.Leibniz.eqb (Js.of_Z t / Js.of_Z t * 100)%float 100%float)
    (Scenario.times_from 1 (Z.to_nat 10000)) = true.
Proof. vm_compute. reflexivity. Qed.

Lemma rate_extremes (t : Z) :
  1 <= t <= 10000 ->
  (Js.of_Z 0 / Js.of_Z t * 100)%float = 0%float /\
  (Js.of_Z t / Js.of_Z t * 100)%float = 100%float.
Proof.
  intros Ht. pose proof rate_extremes_checked as H.
  rewrite forallb_forall in H. specialize (H t).
  apply andb_prop in H.
  - destruct H as [H0 H1]. split; now apply FloatAxioms.Leibniz.eqb_spec.
  - apply In_times_from. lia.
Qed.

Lemma filter_none (l : list NSFWAuditLog) :
  (forall r, In r l -> log_isNSFW r = false) -> filter log_isNSFW l = [].
Proof.
  induction l as [|a l IH]; intros H; [reflexivity|].
  cbn [filter]. rewrite (H a) by now left. apply IH.
  intros r Hr. apply H. now right.
Qed.

Lemma filter_all (l : list NSFWAuditLog) :
  (forall r, In r l -> log_isNSFW r = true) -> filter log_isNSFW l = l.
Proof.
  induction l as [|a l IH]; intros H; [reflexivity|].
  cbn [filter]. rewrite (H a) by now left. f_equal. apply IH.
  intros r Hr. apply H. now right.
Qed.

(** X23: on a log of 1 to 10,000 records, the block rate computed on
    doubles is exactly 0 when no record is blocked and exactly 100 when every
    record is. *)
Theorem blockRate_extremes (w : World) :
  1 <= Z.of_nat (length (auditLogs w)) <= 10000 ->
  exists st : Stats,
    fst (getNSFWStats w) = Normal st /\
    ((forall r, In r (auditLogs w) -> log_isNSFW r = false) ->
     blockRate st = 0%float) /\
    ((forall r, In r (auditLogs w) -> log_isNSFW r = true) ->
     blockRate st = 100%float).
Proof.
  intros Hlen. eexists. split; [reflexivity|].
  cbn [blockRate].
  destruct (Z.ltb_spec 0 (Z.of_nat (length (auditLogs w)))) as [_|]; [|lia].
  destruct (rate_extremes _ Hlen) as [H0 H100].
  split; intros H.
  - rewrite (filter_none _ H). exact H0.
  - rewrite (filter_all _ H). exact H100.
Qed.

Lemma blockRate_extremes_witness :
  exists st : Stats,
    fst (getNSFWStats
           (record_all [(1, Scenario.blocked_fields "a.bmp");
                        (2, Scenario.blocked_fields "b.bmp")] Scenario.start))
      = Normal st /\
    blockRate st = 100%float.
Proof.
  destruct (blockRate_extremes
              (record_all [(1, Scenario.blocked_fields "a.bmp");
                           (2, Scenario.blocked_fields "b.bmp")] Scenario.start))
    as (st & Hrun & _ & Hall).
  - vm_compute. split; discriminate.
  - exists st. split; [exact Hrun|]. apply Hall.
    intros r Hr. vm_compute in Hr. destruct Hr as [<-|[<-|[]]]; reflexivity.
Defined.
